(** * cltk.corpus.utils.importer: the corpus importer

    A shallow embedding of [cltk/corpus/utils/importer.py]: the language
    check of [CorpusImporter.__init__], the registry lookups of
    [list_corpora] and [_get_corpus_properties], and the clone / pull /
    local-copy dispatch of [import_corpus].

    Python strings are [string]; exceptions are values of [exn]; every call
    that leaves the module (logger, [os.path], [os], [shutil], GitPython) is
    an operation of the [Platform] interface and is recorded in the trace of
    the computation, so that statements can speak about which calls were
    made and in which order. *)

From Stdlib Require Import ZArith Ascii String List Bool.
From stdpp Require Import base option list gmap strings.

Local Open Scope string_scope.
Local Open Scope list_scope.

(** ** Python strings *)

Module Str.

(** The double quote and the single quote, for message templates. *)
Definition dq : string := String (ascii_of_nat 34) EmptyString.

Definition is_upper (c : ascii) : bool :=
  (65 <=? nat_of_ascii c)%nat && (nat_of_ascii c <=? 90)%nat.

Definition lower_char (c : ascii) : ascii :=
  if is_upper c then ascii_of_nat (nat_of_ascii c + 32) else c.

(** [str.lower()], on the ASCII letters. *)
Fixpoint lower (s : string) : string :=
  match s with
  | EmptyString => EmptyString
  | String c s' => String (lower_char c) (lower s')
  end.

Fixpoint mem_char (c : ascii) (chars : string) : bool :=
  match chars with
  | EmptyString => false
  | String d chars' => Ascii.eqb c d || mem_char c chars'
  end.

(** [s.rstrip(chars)]: drop the longest suffix made of characters of
    [chars]. *)
Fixpoint rstrip (chars s : string) : string :=
  match s with
  | EmptyString => EmptyString
  | String c s' =>
      match rstrip chars s' with
      | EmptyString => if mem_char c chars then EmptyString else String c EmptyString
      | r => String c r
      end
  end.

Definition startswith (pre s : string) : bool := String.prefix pre s.

Fixpoint last_char (s : string) : option ascii :=
  match s with
  | EmptyString => None
  | String c EmptyString => Some c
  | String _ s' => last_char s'
  end.

Definition endswith_char (c : ascii) (s : string) : bool :=
  match last_char s with
  | Some d => Ascii.eqb c d
  | None => false
  end.

Fixpoint all_char (c : ascii) (s : string) : bool :=
  match s with
  | EmptyString => true
  | String d s' => Ascii.eqb c d && all_char c s'
  end.

Definition is_empty (s : string) : bool :=
  match s with EmptyString => true | _ => false end.

(** [x in xs] for a tuple or list of strings. *)
Fixpoint mem (x : string) (xs : list string) : bool :=
  match xs with
  | [] => false
  | y :: ys => String.eqb y x || mem x ys
  end.

(** [str(x)] and [repr(x)] of a string, and [str(None)]. *)
Definition repr (s : string) : string := "'" +:+ s +:+ "'".

Definition str_opt (o : option string) : string :=
  match o with
  | Some s => s
  | None => "None"
  end.

End Str.

(** ** [os.path] on a POSIX platform ([posixpath]) *)

Module os_path.

Definition sep : ascii := "/"%char.

(** [os.pathsep], the separator of the entries of [PATH]. *)
Definition pathsep : string := ":".

(** [os.sep], the separator of the components of a path. *)
Definition os_sep : string := "/".

(** One step of the loop of [posixpath.join]. *)
Definition join2 (path b : string) : string :=
  if Str.startswith os_sep b then b
  else if Str.is_empty path || Str.endswith_char sep path then path +:+ b
  else path +:+ os_sep +:+ b.

Definition join (a : string) (p : list string) : string :=
  fold_left join2 p a.

(** [p[:i], p[i:]] for [i = p.rfind('/') + 1]; the boolean tells whether
    a separator was found. *)
Fixpoint rsplit_sep (p : string) : string * string * bool :=
  match p with
  | EmptyString => (EmptyString, EmptyString, false)
  | String c p' =>
      let '(h, t, found) := rsplit_sep p' in
      if found then (String c h, t, true)
      else if Ascii.eqb c sep then (String c EmptyString, p', true)
      else (EmptyString, String c t, false)
  end.

(** [posixpath.split]. *)
Definition split (p : string) : string * string :=
  let '(head, tail, _) := rsplit_sep p in
  if negb (Str.is_empty head) && negb (Str.all_char sep head)
  then (Str.rstrip os_sep head, tail)
  else (head, tail).

End os_path.

(** ** Exceptions *)

(** [errno] codes (Linux). *)
Module errno.
Definition ENOENT : Z := 2.
Definition EEXIST : Z := 17.
Definition EBUSY : Z := 16.
Definition ENOTDIR : Z := 20.
Definition EISDIR : Z := 21.
End errno.

(** The exception classes that can reach the importer.  [CorpusImportError]
    is the class this module declares (a direct subclass of [Exception]);
    the others are raised by the interpreter ([KeyError], [NameError],
    [AttributeError], [AssertionError]), by [os] and [shutil] ([OSError]
    and its subclasses, told apart by [errno]; [shutil.Error] carries none)
    and by GitPython ([GitCommandError], [InvalidGitRepositoryError],
    [NoSuchPathError]). *)
Inductive exn : Type :=
| CorpusImportError (msg : string)
| KeyError (key : string)
| NameError (msg : string)
| AttributeError (msg : string)
| AssertionError
| OSError (code : option Z) (msg : string)
| GitCommandError (msg : string)
| InvalidGitRepositoryError (path : string)
| NoSuchPathError (path : string).

(** [isinstance(e, C)] for the classes named in the [except] clauses. *)
Definition is_CorpusImportError (e : exn) : bool :=
  match e with CorpusImportError _ => true | _ => false end.

Definition is_NameError (e : exn) : bool :=
  match e with NameError _ => true | _ => false end.

Definition is_KeyError (e : exn) : bool :=
  match e with KeyError _ => true | _ => false end.

Definition is_OSError (e : exn) : bool :=
  match e with OSError _ _ => true | _ => false end.

(** [exc.errno] of an [OSError]. *)
Definition exn_errno (e : exn) : option Z :=
  match e with OSError code _ => code | _ => None end.

(** [str(e)], as the message templates format it. *)
Definition exn_str (e : exn) : string :=
  match e with
  | CorpusImportError msg => msg
  | KeyError key => Str.repr key
  | NameError msg => msg
  | AttributeError msg => msg
  | AssertionError => EmptyString
  | OSError _ msg => msg
  | GitCommandError msg => msg
  | InvalidGitRepositoryError path => path
  | NoSuchPathError path => path
  end.

(** ** Calls that leave the module *)

Inductive level : Type := INFO | ERROR.

(** One entry per call, in the order the calls are made. *)
Inductive event : Type :=
| Log (lvl : level) (msg : string)
| IsFile (path : string)
| IsDir (path : string)
| MakeDirs (path : string)
| CloneFrom (url to_path : string) (depth : nat)
| OpenRepo (path : string)
| Pull (path : string)
| RmTree (path : string)
| CopyTree (src dst : string)
| CopyFile (src dst : string).

(** The calls that write to the file system or go to the network. *)
Definition is_action (ev : event) : bool :=
  match ev with
  | Log _ _ | IsFile _ | IsDir _ => false
  | _ => true
  end.

Definition is_clone (ev : event) : bool :=
  match ev with CloneFrom _ _ _ => true | _ => false end.

Definition is_pull (ev : event) : bool :=
  match ev with Pull _ => true | _ => false end.

Definition is_copy (ev : event) : bool :=
  match ev with CopyTree _ _ | CopyFile _ _ => true | _ => false end.

(** The entries of a trace that [f] selects, in order. *)
Definition keep (f : event -> bool) (tr : list event) : list event :=
  filter (fun ev => f ev = true) tr.

Definition count (f : event -> bool) (tr : list event) : nat := length (keep f tr).

Definition actions (tr : list event) : list event := keep is_action tr.

(** The clones and pulls of a trace. *)
Definition syncs (tr : list event) : list event :=
  keep (fun ev => is_clone ev || is_pull ev) tr.

(** The calls of [shutil.copytree] and [shutil.copy] of a trace. *)
Definition copies (tr : list event) : list event := keep is_copy tr.

(** The one call a REMOTE import may make besides logging: the test of the
    marker file, the test and the making of the type directory, the clone
    with depth 1 and the opening and pulling of the working copy. *)
Definition remote_call (url parent dir marker : string) (ev : event) : bool :=
  match ev with
  | Log _ _ => true
  | IsFile path => String.eqb path marker
  | IsDir path | MakeDirs path => String.eqb path parent
  | CloneFrom u to_path depth => String.eqb u url && String.eqb to_path dir && Nat.eqb depth 1
  | OpenRepo path | Pull path => String.eqb path dir
  | RmTree _ | CopyTree _ _ | CopyFile _ _ => false
  end.

(** The one call a LOCAL import may make besides logging: the tests of the
    staging directory and of the destination, the making of the staging
    directory, the removal of the destination, and the copies from the
    source to the destination. *)
Definition local_call (staging src dst : string) (ev : event) : bool :=
  match ev with
  | Log _ _ => true
  | IsDir path => String.eqb path staging || String.eqb path dst
  | MakeDirs path => String.eqb path staging
  | RmTree path => String.eqb path dst
  | CopyTree from to | CopyFile from to => String.eqb from src && String.eqb to dst
  | IsFile _ | CloneFrom _ _ _ | OpenRepo _ | Pull _ => false
  end.

(** ** Computations: world passing, exceptions and a trace *)

Inductive outcome (A : Type) : Type :=
| Ok (a : A)
| Raise (e : exn).
Arguments Ok {A} a.
Arguments Raise {A} e.

(** A computation runs on a world [W] (file system and remote hosts); it
    returns or raises, leaves a world behind in both cases, and emits the
    calls it made. *)
Definition M (W A : Type) : Type := W -> outcome A * W * list event.

Section Monad.
Context {W : Type}.

Definition ret {A} (a : A) : M W A := fun w => (Ok a, w, []).

Definition raise {A} (e : exn) : M W A := fun w => (Raise e, w, []).

Definition bind {A B} (m : M W A) (k : A -> M W B) : M W B :=
  fun w =>
    match m w with
    | (Ok a, w1, t1) => let '(r, w2, t2) := k a w1 in (r, w2, t1 ++ t2)
    | (Raise e, w1, t1) => (Raise e, w1, t1)
    end.

(** [try: m  except C as e: h e], where [catches e] is [isinstance(e, C)]. *)
Definition try_except {A} (m : M W A) (catches : exn -> bool) (h : exn -> M W A) : M W A :=
  fun w =>
    match m w with
    | (Raise e, w1, t1) =>
        if catches e then let '(r, w2, t2) := h e w1 in (r, w2, t1 ++ t2)
        else (Raise e, w1, t1)
    | r => r
    end.

Definition emit (ev : event) : M W unit := fun w => (Ok tt, w, [ev]).

(** A read-only test of the world. *)
Definition query (ev : event) (f : W -> bool) : M W bool :=
  fun w => (Ok (f w), w, [ev]).

(** A call that may change the world and may raise. *)
Definition call {A} (ev : event) (f : W -> outcome A * W) : M W A :=
  fun w => let '(r, w') := f w in (r, w', [ev]).

(** [if c: m] *)
Definition when (c : bool) (m : M W unit) : M W unit :=
  if c then m else ret tt.

Definition result {A} (r : outcome A * W * list event) : outcome A := r.1.1.
Definition world_of {A} (r : outcome A * W * list event) : W := r.1.2.
Definition trace_of {A} (r : outcome A * W * list event) : list event := r.2.

End Monad.

Declare Scope py_scope.
Delimit Scope py_scope with py.
Notation "x <- m ;; k" := (bind m (fun x => k))
  (at level 100, m at next level, right associativity) : py_scope.
Notation "m ;; k" := (bind m (fun _ => k))
  (at level 100, right associativity) : py_scope.
Local Open Scope py_scope.

(** ** The collaborators *)

(** What [Repo(path)] gives back: whether the repository is bare and the
    names of its remotes. *)
Record Repo : Type := mkRepo {
  working_dir : string;
  bare : bool;
  remotes : list string
}.

(** The operations of [os.path], [os], [shutil], [urllib.parse], GitPython
    and [cltk.utils.file_operations] the importer calls, over a world [W]. *)
Class Platform (W : Type) : Type := {
  (** [make_cltk_path] applied to [parts]: the path of [parts] under the data root. *)
  make_cltk_path : list string -> string;
  (** [urllib.parse.urljoin(base, url)]. *)
  urljoin : string -> string -> string;
  os_path_isfile : string -> W -> bool;
  os_path_isdir : string -> W -> bool;
  os_makedirs : string -> W -> outcome unit * W;
  shutil_rmtree : string -> W -> outcome unit * W;
  shutil_copytree : string -> string -> W -> outcome unit * W;
  shutil_copy : string -> string -> W -> outcome unit * W;
  (** [Repo.clone_from(url, to_path, depth=depth, progress=...)]. *)
  Repo_clone_from : string -> string -> nat -> W -> outcome unit * W;
  (** [Repo(path)]. *)
  Repo_init : string -> W -> outcome Repo * W;
  (** [repo.remotes.origin.pull()] in the repository at [path]. *)
  Remote_pull : string -> W -> outcome unit * W
}.

(** ** The registry *)

(** Modelled from the spec: the descriptor tables [CHINESE_CORPORA], ...,
    [TIBETAN_CORPORA] are imported from [cltk.corpus.<language>.corpora],
    which is not part of the sources at hand.  A descriptor is a dictionary
    with the keys ['name'], ['location'] and ['type']; the importer reads
    all three as strings. *)
Record corpus : Type := mkCorpus {
  name : string;
  location : string;
  type : string
}.

Record Registry : Type := mkRegistry {
  CHINESE_CORPORA : list corpus;
  COPTIC_CORPORA : list corpus;
  GREEK_CORPORA : list corpus;
  LATIN_CORPORA : list corpus;
  SANSKRIT_CORPORA : list corpus;
  MULTILINGUAL_CORPORA : list corpus;
  PALI_CORPORA : list corpus;
  TIBETAN_CORPORA : list corpus
}.

Definition AVAILABLE_LANGUAGES : list string :=
  ["chinese"; "coptic"; "greek"; "latin"; "multilingual"; "pali"; "tibetan"; "sanskrit"].

(** The dictionary literal; its keys are pairwise distinct. *)
Definition LANGUAGE_CORPORA (reg : Registry) : gmap string (list corpus) :=
  list_to_map
    [("chinese", CHINESE_CORPORA reg);
     ("coptic", COPTIC_CORPORA reg);
     ("greek", GREEK_CORPORA reg);
     ("latin", LATIN_CORPORA reg);
     ("multilingual", MULTILINGUAL_CORPORA reg);
     ("pali", PALI_CORPORA reg);
     ("tibetan", TIBETAN_CORPORA reg);
     ("sanskrit", SANSKRIT_CORPORA reg)].

(** ** class CorpusImporter *)

Record CorpusImporter : Type := mkCorpusImporter { language : string }.

Section Importer.
Context {W : Type} `{Platform W}.
Variable reg : Registry.

Definition logger_info (msg : string) : M W unit := emit (Log INFO msg).
Definition logger_error (msg : string) : M W unit := emit (Log ERROR msg).

(** [d[key]] *)
Definition getitem {V} (d : gmap string V) (key : string) : M W V :=
  match d !! key with
  | Some v => ret v
  | None => raise (KeyError key)
  end.

(** [assert c] *)
Definition assert_ (c : bool) : M W unit :=
  if c then ret tt else raise AssertionError.

Definition _setup_language_variables (self : CorpusImporter) : M W unit :=
  if negb (Str.mem (language self) AVAILABLE_LANGUAGES) then
    let msg := "Corpora not available for the " +:+ Str.dq +:+ language self
               +:+ Str.dq +:+ " language." in
    raise (CorpusImportError msg)
  else ret tt.

Definition __init__ (language : string) : M W CorpusImporter :=
  let self := {| language := Str.lower language |} in
  _setup_language_variables self ;;
  ret self.

Definition list_corpora (self : CorpusImporter) : M W (list string) :=
  try_except
    (corpora <- getitem (LANGUAGE_CORPORA reg) (language self) ;;
     let corpus_names := map name corpora in
     ret corpus_names)
    (fun error => is_NameError error || is_KeyError error)
    (fun error =>
       let msg := "Corpus not available for language " +:+ Str.dq +:+ language self
                  +:+ Str.dq +:+ ": " +:+ exn_str error in
       logger_error msg ;;
       raise (CorpusImportError msg)).

Definition _copy_dir_recursive (src dst : string) : M W unit :=
  try_except
    (call (CopyTree src dst) (shutil_copytree src dst) ;;
     logger_info ("Files copied from " +:+ src +:+ " to " +:+ dst))
    is_OSError
    (fun exc =>
       if bool_decide (exn_errno exc = Some errno.ENOTDIR) then
         call (CopyFile src dst) (shutil_copy src dst) ;;
         logger_info ("Files copied from " +:+ src +:+ " to " +:+ dst)
       else raise exc).

(** The [for] loop of [_get_corpus_properties]: the first descriptor
    whose name is [corpus_name]. *)
Fixpoint first_named (corpus_name : string) (corpora : list corpus) : option corpus :=
  match corpora with
  | [] => None
  | corpus_properties :: rest =>
      if String.eqb (name corpus_properties) corpus_name then Some corpus_properties
      else first_named corpus_name rest
  end.

Definition _get_corpus_properties (self : CorpusImporter) (corpus_name : string)
  : M W corpus :=
  corpora <- try_except
               (getitem (LANGUAGE_CORPORA reg) (language self))
               is_NameError
               (fun name_error =>
                  let msg := "Corpus not available for language " +:+ Str.dq
                             +:+ language self +:+ Str.dq +:+ ": " +:+ exn_str name_error in
                  logger_error msg ;;
                  raise (CorpusImportError msg)) ;;
  match first_named corpus_name corpora with
  | Some corpus_properties => ret corpus_properties
  | None =>
      let msg := "Corpus " +:+ Str.dq +:+ corpus_name +:+ Str.dq +:+ " not available for the "
                 +:+ Str.dq +:+ language self +:+ Str.dq +:+ " language." in
      logger_error msg ;;
      raise (CorpusImportError msg)
  end.

(** [repo.remotes.origin] *)
Definition remotes_origin (repo : Repo) : M W string :=
  if Str.mem "origin" (remotes repo) then ret "origin"
  else raise (AttributeError "'IterableList' object has no attribute 'origin'").

(** [local_path.rstrip(os.pathsep)]; [None] has no such method. *)
Definition rstrip_pathsep (local_path : option string) : M W string :=
  match local_path with
  | Some p => ret (Str.rstrip os_path.pathsep p)
  | None => raise (AttributeError "'NoneType' object has no attribute 'rstrip'")
  end.

(** The directory-name check made for each of the three legacy corpora. *)
Definition check_dir_name (corpus_name local_path legacy expected : string) : M W unit :=
  when (String.eqb corpus_name legacy)
    (when (negb (String.eqb (os_path.split local_path).2 expected))
       (logger_info ("Directory must be named '" +:+ expected +:+ "'."))).

(** The body of [import_corpus] under [if location == 'remote']. *)
Definition remote_branch (self : CorpusImporter) (corpus_name corpus_type : string)
  : M W unit :=
  let git_uri := urljoin "https://github.com/cltk/" (corpus_name +:+ ".git") in
  let type_dir := make_cltk_path [language self; corpus_type] in
  let target_dir := os_path.join type_dir [corpus_name] in
  let target_file := os_path.join type_dir [corpus_name; "README.md"] in
  present <- query (IsFile target_file) (os_path_isfile target_file) ;;
  if negb present then
    is_dir <- query (IsDir type_dir) (os_path_isdir type_dir) ;;
    when (negb is_dir) (call (MakeDirs type_dir) (os_makedirs type_dir)) ;;
    try_except
      (logger_info ("Cloning '" +:+ corpus_name +:+ "' from '" +:+ git_uri +:+ "'") ;;
       call (CloneFrom git_uri target_dir 1) (Repo_clone_from git_uri target_dir 1))
      is_CorpusImportError
      (fun corpus_imp_err =>
         logger_error ("Git clone of '" +:+ git_uri +:+ "' failed: '"
                       +:+ exn_str corpus_imp_err +:+ "'"))
  else
    try_except
      (repo <- call (OpenRepo target_dir) (Repo_init target_dir) ;;
       assert_ (negb (bare repo)) ;;
       git_origin <- remotes_origin repo ;;
       logger_info ("Pulling latest '" +:+ corpus_name +:+ "' from '" +:+ git_uri +:+ "'.") ;;
       call (Pull target_dir) (Remote_pull target_dir))
      is_CorpusImportError
      (fun corpus_imp_err =>
         logger_error ("Git pull of '" +:+ git_uri +:+ "' failed: '"
                       +:+ exn_str corpus_imp_err +:+ "'")).

(** The body of [import_corpus] under [elif location == 'local']. *)
Definition local_branch (corpus_name : string) (local_path : option string) : M W unit :=
  logger_info ("Importing from local path: '" +:+ Str.str_opt local_path +:+ "'") ;;
  if Str.mem corpus_name ["phi5"; "phi7"; "tlg"] then
    local_path <- rstrip_pathsep local_path ;;
    check_dir_name corpus_name local_path "phi5" "PHI5" ;;
    check_dir_name corpus_name local_path "phi7" "PHI7" ;;
    check_dir_name corpus_name local_path "tlg" "TLG_E" ;;
    let originals_dir := make_cltk_path ["originals"] in
    is_dir <- query (IsDir originals_dir) (os_path_isdir originals_dir) ;;
    when (negb is_dir)
      (call (MakeDirs originals_dir) (os_makedirs originals_dir) ;;
       logger_info ("Wrote directory at '" +:+ originals_dir +:+ "'.")) ;;
    let tlg_originals_dir := make_cltk_path ["originals"; corpus_name] in
    is_dir <- query (IsDir tlg_originals_dir) (os_path_isdir tlg_originals_dir) ;;
    when is_dir
      (call (RmTree tlg_originals_dir) (shutil_rmtree tlg_originals_dir) ;;
       logger_info ("Removed directory at '" +:+ tlg_originals_dir +:+ "'.")) ;;
    is_dir <- query (IsDir tlg_originals_dir) (os_path_isdir tlg_originals_dir) ;;
    when (negb is_dir) (_copy_dir_recursive local_path tlg_originals_dir)
  else ret tt.

Definition import_corpus (self : CorpusImporter) (corpus_name : string)
    (local_path : option string) : M W unit :=
  corpus_properties <- _get_corpus_properties self corpus_name ;;
  let location := location corpus_properties in
  let corpus_type := type corpus_properties in
  if String.eqb location "remote" then remote_branch self corpus_name corpus_type
  else if String.eqb location "local" then local_branch corpus_name local_path
  else ret tt.

(** Names for what [import_corpus] computes on the way: the URL it
    clones from, the directories of a remote corpus and its marker file,
    the staging directory and the destination of a local corpus. *)
Definition git_uri (corpus_name : string) : string :=
  urljoin "https://github.com/cltk/" (corpus_name +:+ ".git").

Definition type_dir (self : CorpusImporter) (corpus_type : string) : string :=
  make_cltk_path [language self; corpus_type].

Definition target_dir (self : CorpusImporter) (corpus_type corpus_name : string) : string :=
  os_path.join (type_dir self corpus_type) [corpus_name].

Definition target_file (self : CorpusImporter) (corpus_type corpus_name : string) : string :=
  os_path.join (type_dir self corpus_type) [corpus_name; "README.md"].

Definition originals_dir : string := make_cltk_path ["originals"].

Definition tlg_originals_dir (corpus_name : string) : string :=
  make_cltk_path ["originals"; corpus_name].

(** What one directory-name check of the local branch logs, and what the
    three of them log. *)
Definition dir_name_log (corpus_name local_path legacy expected : string) : list event :=
  if String.eqb corpus_name legacy
     && negb (String.eqb (os_path.split local_path).2 expected)
  then [Log INFO ("Directory must be named '" +:+ expected +:+ "'.")]
  else [].

Definition dir_name_logs (corpus_name local_path : string) : list event :=
  dir_name_log corpus_name local_path "phi5" "PHI5"
  ++ dir_name_log corpus_name local_path "phi7" "PHI7"
  ++ dir_name_log corpus_name local_path "tlg" "TLG_E".

(** A run ends as the copy from [src] to [dst] ends in the world [w1],
    [pre] being what was logged and called before: [shutil.copytree]
    returns; or it raises an [OSError] with [errno] [ENOTDIR] and the
    outcome is that of [shutil.copy]; or it raises anything else, which is
    the outcome. *)
Definition ends_as_the_copy (run : outcome unit * W * list event) (pre : list event)
    (src dst : string) (w1 : W) : Prop :=
  let copied := Log INFO ("Files copied from " +:+ src +:+ " to " +:+ dst) in
  match shutil_copytree src dst w1 with
  | (Ok _, w2) => run = (Ok tt, w2, pre ++ [CopyTree src dst; copied])
  | (Raise e, w2) =>
      if is_OSError e && bool_decide (exn_errno e = Some errno.ENOTDIR) then
        match shutil_copy src dst w2 with
        | (Ok _, w3) =>
            run = (Ok tt, w3, pre ++ [CopyTree src dst; CopyFile src dst; copied])
        | (Raise e', w3) =>
            run = (Raise e', w3, pre ++ [CopyTree src dst; CopyFile src dst])
        end
      else run = (Raise e, w2, pre ++ [CopyTree src dst])
  end.

(** [__repr__] *)
Definition __repr__ (self : CorpusImporter) : string :=
  "CorpusImporter for: " +:+ language self.

(** What [import_corpus] does for a legacy corpus after the directory-name
    checks (from [originals_dir = make_cltk_path('originals')] to the
    end). *)
Definition stage_and_copy (corpus_name local_path : string) : M W unit :=
  let originals_dir := make_cltk_path ["originals"] in
  is_dir <- query (IsDir originals_dir) (os_path_isdir originals_dir) ;;
  when (negb is_dir)
    (call (MakeDirs originals_dir) (os_makedirs originals_dir) ;;
     logger_info ("Wrote directory at '" +:+ originals_dir +:+ "'.")) ;;
  let tlg_originals_dir := make_cltk_path ["originals"; corpus_name] in
  is_dir <- query (IsDir tlg_originals_dir) (os_path_isdir tlg_originals_dir) ;;
  when is_dir
    (call (RmTree tlg_originals_dir) (shutil_rmtree tlg_originals_dir) ;;
     logger_info ("Removed directory at '" +:+ tlg_originals_dir +:+ "'.")) ;;
  is_dir <- query (IsDir tlg_originals_dir) (os_path_isdir tlg_originals_dir) ;;
  when (negb is_dir) (_copy_dir_recursive local_path tlg_originals_dir).

(** The directory name the importer expects for a legacy corpus. *)
Definition expected_dir_name (corpus_name : string) : string :=
  if String.eqb corpus_name "phi5" then "PHI5"
  else if String.eqb corpus_name "phi7" then "PHI7"
  else "TLG_E".

(** Two calls, one after the other. *)
Definition twice (m : M W unit) : M W unit := m ;; m.

End Importer.

(** ** A file system and a remote host

    A concrete world for the [Platform] interface: a directory tree, and a
    table of the repositories the remote host serves.  Paths are resolved
    from the root directory; there are no symbolic links and no
    permissions, so the only failures are those of the shape of the tree. *)

Module TreeFS.

#[warnings="-register-all"]
Inductive node : Type :=
| File (content : string)
| Dir (entries : gmap string node).

Record world : Type := mkWorld {
  root : node;
  (** URL to the tree at the head of the default branch. *)
  served : gmap string (gmap string node)
}.

Definition set_root (r : node) (w : world) : world :=
  {| root := r; served := served w |}.

(** *** Paths *)

(** [p.split('/')] *)
Fixpoint split_on_sep (p : string) : list string :=
  match p with
  | EmptyString => [EmptyString]
  | String c p' =>
      if Ascii.eqb c os_path.sep then EmptyString :: split_on_sep p'
      else match split_on_sep p' with
           | x :: xs => String c x :: xs
           | [] => [String c EmptyString]
           end
  end.

(** One component of a path, walked from the root; the components seen so
    far are kept innermost first. *)
Definition walk (seen : list string) (x : string) : list string :=
  if String.eqb x EmptyString || String.eqb x "." then seen
  else if String.eqb x ".." then tail seen
  else x :: seen.

Definition resolve (p : string) : list string :=
  rev (fold_left walk (split_on_sep p) []).

Fixpoint lookup (p : list string) (n : node) : option node :=
  match p with
  | [] => Some n
  | x :: p' =>
      match n with
      | Dir es => match es !! x with
                  | Some c => lookup p' c
                  | None => None
                  end
      | File _ => None
      end
  end.

Definition is_file (o : option node) : bool :=
  match o with Some (File _) => true | _ => false end.

Definition is_dir (o : option node) : bool :=
  match o with Some (Dir _) => true | _ => false end.

(** A chain of new directories down to [new]. *)
Fixpoint fresh (p : list string) (new : node) : node :=
  match p with
  | [] => new
  | x :: p' => Dir {[ x := fresh p' new ]}
  end.

(** Put [new] at [p], which must not exist, making the missing
    directories on the way; fails with an [errno] code. *)
Fixpoint create (p : list string) (new : node) (n : node) : Z + node :=
  match p with
  | [] => inl errno.EEXIST
  | x :: p' =>
      match n with
      | File _ => inl errno.ENOTDIR
      | Dir es =>
          match es !! x with
          | None => inr (Dir (<[x := fresh p' new]> es))
          | Some c =>
              match create p' new c with
              | inl code => inl code
              | inr c' => inr (Dir (<[x := c']> es))
              end
          end
      end
  end.

(** Put [new] at [p], whose parent directory must exist. *)
Fixpoint put (p : list string) (new : node) (n : node) : Z + node :=
  match p with
  | [] => inl errno.EISDIR
  | x :: p' =>
      match n with
      | File _ => inl errno.ENOTDIR
      | Dir es =>
          match p' with
          | [] => inr (Dir (<[x := new]> es))
          | _ :: _ =>
              match es !! x with
              | None => inl errno.ENOENT
              | Some c =>
                  match put p' new c with
                  | inl code => inl code
                  | inr c' => inr (Dir (<[x := c']> es))
                  end
              end
          end
      end
  end.

(** Unlink the entry at [p] with all that is below it. *)
Fixpoint remove (p : list string) (n : node) : node :=
  match p with
  | [] => n
  | x :: p' =>
      match n with
      | File _ => n
      | Dir es =>
          match p' with
          | [] => Dir (delete x es)
          | _ :: _ =>
              match es !! x with
              | None => n
              | Some c => Dir (<[x := remove p' c]> es)
              end
          end
      end
  end.

(** A name of one component: it holds no separator and is neither empty
    nor [.] nor [..]. *)
Fixpoint no_sep (b : string) : bool :=
  match b with
  | EmptyString => true
  | String c b' => negb (Ascii.eqb c os_path.sep) && no_sep b'
  end.

Definition plain (b : string) : bool :=
  no_sep b && negb (String.eqb b EmptyString || String.eqb b ".")
  && negb (String.eqb b "..").

(** Two paths part ways: at some depth their components differ, so that
    neither lies on or below the other. *)
Fixpoint diverges (p q : list string) : bool :=
  match p, q with
  | x :: p', y :: q' => if String.eqb x y then diverges p' q' else true
  | _, _ => false
  end.

(** *** [os.path], [os] and [shutil] *)

Definition isfile (path : string) (w : world) : bool :=
  is_file (lookup (resolve path) (root w)).

Definition isdir (path : string) (w : world) : bool :=
  is_dir (lookup (resolve path) (root w)).

Definition oserror {A} (code : Z) (path : string) (w : world) : outcome A * world :=
  (Raise (OSError (Some code) path), w).

Definition makedirs (path : string) (w : world) : outcome unit * world :=
  match create (resolve path) (Dir ∅) (root w) with
  | inl code => oserror code path w
  | inr r => (Ok tt, set_root r w)
  end.

(** [shutil.rmtree]; the root directory itself cannot be removed. *)
Definition rmtree (path : string) (w : world) : outcome unit * world :=
  match lookup (resolve path) (root w) with
  | None => oserror errno.ENOENT path w
  | Some (File _) => oserror errno.ENOTDIR path w
  | Some (Dir _) =>
      match resolve path with
      | [] => oserror errno.EBUSY path w
      | _ :: _ => (Ok tt, set_root (remove (resolve path) (root w)) w)
      end
  end.

(** [shutil.copytree]: the source is listed first, then the destination
    is made, which must not exist. *)
Definition copytree (src dst : string) (w : world) : outcome unit * world :=
  match lookup (resolve src) (root w) with
  | None => oserror errno.ENOENT src w
  | Some (File _) => oserror errno.ENOTDIR src w
  | Some (Dir es) =>
      match create (resolve dst) (Dir es) (root w) with
      | inl code => oserror code dst w
      | inr r => (Ok tt, set_root r w)
      end
  end.

(** [shutil.copy]: into [dst] under the source's name when [dst] is a
    directory, onto [dst] otherwise. *)
Definition copy (src dst : string) (w : world) : outcome unit * world :=
  match lookup (resolve src) (root w) with
  | None => oserror errno.ENOENT src w
  | Some (Dir _) => oserror errno.EISDIR src w
  | Some (File content) =>
      let target :=
        if isdir dst w then resolve dst ++ [(os_path.split src).2] else resolve dst in
      if is_dir (lookup target (root w)) then oserror errno.EISDIR dst w
      else match put target (File content) (root w) with
           | inl code => oserror code dst w
           | inr r => (Ok tt, set_root r w)
           end
  end.

(** *** The remote host and the working copies *)

(** A working copy: the served tree and the record of where it came
    from. *)
Definition checkout (url : string) (tree : gmap string node) : node :=
  Dir (<[".git" := File url]> tree).

Definition origin_url (o : option node) : option string :=
  match o with
  | Some (Dir es) => match es !! ".git" with
                     | Some (File url) => Some url
                     | _ => None
                     end
  | _ => None
  end.

Definition is_empty_dir (o : option node) : bool :=
  match o with
  | Some (Dir es) => Nat.eqb (size es) 0
  | _ => false
  end.

Definition clone_from (url to_path : string) (depth : nat) (w : world)
  : outcome unit * world :=
  match served w !! url with
  | None => (Raise (GitCommandError ("repository '" +:+ url +:+ "' not found")), w)
  | Some tree =>
      let p := resolve to_path in
      let placed :=
        if is_empty_dir (lookup p (root w)) then put p (checkout url tree) (root w)
        else create p (checkout url tree) (root w) in
      match placed with
      | inl _ =>
          (Raise (GitCommandError ("destination path '" +:+ to_path
                                   +:+ "' already exists and is not an empty directory")), w)
      | inr r => (Ok tt, set_root r w)
      end
  end.

Definition repo_init (path : string) (w : world) : outcome Repo * world :=
  match lookup (resolve path) (root w) with
  | None => (Raise (NoSuchPathError path), w)
  | Some n =>
      match origin_url (Some n) with
      | Some _ => (Ok {| working_dir := path; bare := false; remotes := ["origin"] |}, w)
      | None => (Raise (InvalidGitRepositoryError path), w)
      end
  end.

Definition pull (path : string) (w : world) : outcome unit * world :=
  match origin_url (lookup (resolve path) (root w)) with
  | None => (Raise (GitCommandError "not a git repository"), w)
  | Some url =>
      match served w !! url with
      | None => (Raise (GitCommandError ("repository '" +:+ url +:+ "' not found")), w)
      | Some tree =>
          match put (resolve path) (checkout url tree) (root w) with
          | inl _ => (Raise (GitCommandError "cannot update the working tree"), w)
          | inr r => (Ok tt, set_root r w)
          end
      end
  end.

(** [urljoin] for a base that ends a directory and a reference of one
    plain segment: the reference replaces what follows the last [/]. *)
Definition join_url (base url : string) : string :=
  (os_path.rsplit_sep base).1.1 +:+ url.

(** The platform with the data root at [data_root].

    Modelled from the spec: [make_cltk_path] is defined in
    [cltk.utils.file_operations], which is not part of the sources at hand;
    it maps its arguments to the path they name under the root data
    directory, here by [os.path.join]. *)
Definition platform (data_root : string) : Platform world := {|
  make_cltk_path := os_path.join data_root;
  urljoin := join_url;
  os_path_isfile := isfile;
  os_path_isdir := isdir;
  os_makedirs := makedirs;
  shutil_rmtree := rmtree;
  shutil_copytree := copytree;
  shutil_copy := copy;
  Repo_clone_from := clone_from;
  Repo_init := repo_init;
  Remote_pull := pull
|}.

End TreeFS.

(** ** A sample installation

    A registry with remote and local descriptors, and a machine on which
    the user [u] keeps a copy of the TLG and of the PHI5 discs; the remote
    host serves the Greek models and nothing else. *)

Module Sample.
Import TreeFS.

Definition reg : Registry := {|
  CHINESE_CORPORA := [];
  COPTIC_CORPORA := [];
  GREEK_CORPORA :=
    [mkCorpus "greek_models_cltk" "remote" "model";
     mkCorpus "tlg" "local" "text";
     mkCorpus "phi7" "local" "text";
     mkCorpus "greek_custom" "local" "text";
     (* a second entry of a name already listed *)
     mkCorpus "tlg" "remote" "text"];
  LATIN_CORPORA :=
    [mkCorpus "latin_models_cltk" "remote" "model";
     mkCorpus "phi5" "local" "text"];
  SANSKRIT_CORPORA := [];
  MULTILINGUAL_CORPORA := [];
  PALI_CORPORA := [];
  TIBETAN_CORPORA := []
|}.

Definition P : Platform world := platform "/home/u/cltk_data".

Definition greek : CorpusImporter := {| language := "greek" |}.
Definition latin : CorpusImporter := {| language := "latin" |}.

Definition home : node :=
  Dir {[ "TLG_E" := Dir {[ "a.txt" := File "alpha"; "b.txt" := File "beta" ]};
         "PHI5" := Dir {[ "x.txt" := File "chi" ]};
         "notes.txt" := File "notes";
         "cltk_data" :=
           Dir {[ "originals" := Dir {[ "tlg" := Dir {[ "stale.txt" := File "old" ]} ]};
                  "latin" := Dir {[ "model" := Dir ∅ ]} ]} ]}.

Definition w0 : world := {|
  root := Dir {[ "home" := Dir {[ "u" := home ]} ]};
  served :=
    {[ "https://github.com/cltk/greek_models_cltk.git" :=
         {[ "README.md" := File "Greek models"; "pos.pickle" := File "tagger" ]} ]}
|}.

(** The machine after the Greek models were imported once. *)
Definition w1 : world :=
  world_of (import_corpus (H := P) reg greek "greek_models_cltk" None w0).

(** And after they were imported a second time. *)
Definition w2 : world :=
  world_of (import_corpus (H := P) reg greek "greek_models_cltk" None w1).

(** The machine [w1] when the remote host has gone away. *)
Definition w1_offline : world := {| root := root w1; served := ∅ |}.

End Sample.

(** * Properties *)

(** ** Membership, the registry and the constructor *)

Lemma mem_true (x : string) (xs : list string) : Str.mem x xs = true -> In x xs.
Proof.
  induction xs as [|y ys IH]; simpl; [discriminate|].
  intros Hm. apply orb_true_iff in Hm as [Heq|Hm].
  - left. now apply String.eqb_eq.
  - right. now apply IH.
Qed.

(** Every supported language is a key of the dictionary. *)
Lemma available_language_has_corpora (reg : Registry) (lang : string) :
  Str.mem lang AVAILABLE_LANGUAGES = true ->
  exists corpora, LANGUAGE_CORPORA reg !! lang = Some corpora.
Proof.
  intros Hm. apply mem_true in Hm. simpl in Hm.
  repeat (destruct Hm as [<-|Hm]; [eexists; reflexivity|]).
  destruct Hm.
Qed.

(** Run the plumbing of a computation: sequencing, handlers and the
    emission of events, leaving the calls of the platform in place. *)
Ltac mrun :=
  cbv beta iota zeta delta
    [bind try_except ret raise emit query call when logger_info logger_error
     assert_ getitem app].

Section Facts.
Context {W : Type} `{Platform W}.
Variable reg : Registry.

Lemma init_unfold (lang : string) (w : W) :
  __init__ lang w =
    (if Str.mem (Str.lower lang) AVAILABLE_LANGUAGES
     then Ok {| language := Str.lower lang |}
     else Raise (CorpusImportError
                   ("Corpora not available for the " +:+ Str.dq +:+ Str.lower lang
                    +:+ Str.dq +:+ " language.")),
     w, []).
Proof.
  unfold __init__, _setup_language_variables. cbn [language].
  destruct (Str.mem (Str.lower lang) AVAILABLE_LANGUAGES); reflexivity.
Qed.

(** What a successful construction tells about the instance. *)
Lemma init_ok_inv (lang : string) (self : CorpusImporter) (w : W) :
  result (__init__ lang w) = Ok self ->
  self = {| language := Str.lower lang |}
  /\ Str.mem (language self) AVAILABLE_LANGUAGES = true.
Proof.
  rewrite init_unfold. unfold result. cbn [fst].
  destruct (Str.mem (Str.lower lang) AVAILABLE_LANGUAGES) eqn:Hm; [|discriminate].
  intros [= <-]. split; [reflexivity | exact Hm].
Qed.

Lemma init_ok_corpora (lang : string) (self : CorpusImporter) (w : W) :
  result (__init__ lang w) = Ok self ->
  exists corpora, LANGUAGE_CORPORA reg !! language self = Some corpora.
Proof.
  intros Hinit. apply init_ok_inv in Hinit as [_ Hm].
  now apply available_language_has_corpora.
Qed.

(** The loop returns the first descriptor of the name, whatever follows
    it. *)
Lemma first_named_app (corpus_name : string) (pre post : list corpus) (d : corpus) :
  name d = corpus_name ->
  (forall c, In c pre -> name c <> corpus_name) ->
  first_named corpus_name (pre ++ d :: post) = Some d.
Proof.
  intros Hd. induction pre as [|c pre IH]; simpl; intros Hpre.
  - apply String.eqb_eq in Hd. now rewrite Hd.
  - assert (Hc : name c <> corpus_name) by (apply Hpre; now left).
    apply String.eqb_neq in Hc. rewrite Hc. apply IH.
    intros c' Hin. apply Hpre. now right.
Qed.

Lemma first_named_none (corpus_name : string) (corpora : list corpus) :
  (forall c, In c corpora -> name c <> corpus_name) ->
  first_named corpus_name corpora = None.
Proof.
  induction corpora as [|c corpora IH]; simpl; intros Hall; [reflexivity|].
  assert (Hc : name c <> corpus_name) by (apply Hall; now left).
  apply String.eqb_neq in Hc. rewrite Hc. apply IH.
  intros c' Hin. apply Hall. now right.
Qed.

Lemma first_named_some (corpus_name : string) (corpora : list corpus) (d : corpus) :
  first_named corpus_name corpora = Some d ->
  name d = corpus_name /\ In d corpora.
Proof.
  induction corpora as [|c corpora IH]; simpl; [discriminate|].
  destruct (String.eqb (name c) corpus_name) eqn:Heq.
  - intros [= <-]. split; [now apply String.eqb_eq | now left].
  - intros Hf. destruct (IH Hf) as [Hn Hin]. split; [exact Hn | now right].
Qed.

(** [_get_corpus_properties] once the language's table is known. *)
Lemma get_corpus_properties_unfold (self : CorpusImporter) (corpus_name : string)
    (corpora : list corpus) (w : W) :
  LANGUAGE_CORPORA reg !! language self = Some corpora ->
  _get_corpus_properties reg self corpus_name w =
    match first_named corpus_name corpora with
    | Some d => (Ok d, w, [])
    | None =>
        let msg := "Corpus " +:+ Str.dq +:+ corpus_name +:+ Str.dq
                   +:+ " not available for the " +:+ Str.dq +:+ language self
                   +:+ Str.dq +:+ " language." in
        (Raise (CorpusImportError msg), w, [Log ERROR msg])
    end.
Proof.
  intros Hreg.
  unfold _get_corpus_properties, getitem. rewrite Hreg. mrun.
  destruct (first_named corpus_name corpora); reflexivity.
Qed.

End Facts.


(** C10.  For an importer whose construction succeeded, its language is a
    key of [LANGUAGE_CORPORA], and [list_corpora] returns the names of that
    language's descriptors, in order, without raising, logging or touching
    the world. *)
Theorem list_corpora_never_raises {W : Type} (reg : Registry) (lang : string)
    (self : CorpusImporter) (w : W)
    (Hinit : result (__init__ lang w) = Ok self) :
  exists corpora,
    LANGUAGE_CORPORA reg !! language self = Some corpora
    /\ list_corpora reg self w = (Ok (map name corpora), w, []).
Proof.
  destruct (init_ok_corpora reg lang self w Hinit) as [corpora Hreg].
  exists corpora. split; [exact Hreg|].
  unfold list_corpora, getitem. rewrite Hreg. reflexivity.
Qed.

(** C3.  For a constructed importer the language's table is found; when no
    descriptor of the table is named [corpus_name], [import_corpus] raises
    [CorpusImportError] having only logged the message, with the world as
    it was; and when the table has a descriptor of that name, the lookup
    returns the first such descriptor, whatever comes after it. *)
Theorem unknown_corpus_raises_before_any_action {W : Type} `{Platform W}
    (reg : Registry) (lang : string) (self : CorpusImporter)
    (corpus_name : string) (local_path : option string) (w : W)
    (Hinit : result (__init__ lang w) = Ok self) :
  exists corpora,
    LANGUAGE_CORPORA reg !! language self = Some corpora
    /\ ((forall c, In c corpora -> name c <> corpus_name) ->
        exists msg,
          import_corpus reg self corpus_name local_path w
          = (Raise (CorpusImportError msg), w, [Log ERROR msg]))
    /\ (forall pre d post,
          corpora = pre ++ d :: post ->
          name d = corpus_name ->
          (forall c, In c pre -> name c <> corpus_name) ->
          _get_corpus_properties reg self corpus_name w = (Ok d, w, [])).
Proof.
  destruct (init_ok_corpora reg lang self w Hinit) as [corpora Hreg].
  exists corpora. split; [exact Hreg|]. split.
  - intros Hnone. eexists.
    unfold import_corpus, bind.
    rewrite (get_corpus_properties_unfold reg self corpus_name corpora w Hreg).
    rewrite (first_named_none corpus_name corpora Hnone). reflexivity.
  - intros pre d post -> Hd Hpre.
    rewrite (get_corpus_properties_unfold reg self corpus_name _ w Hreg).
    now rewrite (first_named_app corpus_name pre post d Hd Hpre).
Qed.

(** ** Traces *)

Lemma keep_app (f : event -> bool) (a b : list event) :
  keep f (a ++ b) = keep f a ++ keep f b.
Proof. apply filter_app. Qed.

Lemma keep_cons (f : event -> bool) (ev : event) (tr : list event) :
  keep f (ev :: tr) = if f ev then ev :: keep f tr else keep f tr.
Proof.
  unfold keep. rewrite filter_cons.
  destruct (f ev); [rewrite decide_True | rewrite decide_False]; done.
Qed.

(** Push [keep] through a trace built with [::] and [++]. *)
Ltac sift :=
  unfold actions, copies, syncs;
  repeat first [rewrite keep_app | rewrite keep_cons; cbn [is_action is_copy]].

(** ** The remote branch *)

Section Remote.
Context {W : Type} `{Platform W}.
Variable reg : Registry.

(** The dispatch of [import_corpus] on the location of the descriptor
    found. *)
Lemma import_corpus_found (self : CorpusImporter) (corpus_name : string)
    (local_path : option string) (corpora : list corpus) (d : corpus) (w : W) :
  LANGUAGE_CORPORA reg !! language self = Some corpora ->
  first_named corpus_name corpora = Some d ->
  import_corpus reg self corpus_name local_path w =
    (if String.eqb (location d) "remote" then remote_branch self corpus_name (type d)
     else if String.eqb (location d) "local" then local_branch corpus_name local_path
     else ret tt) w.
Proof.
  intros Hreg Hd. unfold import_corpus, bind.
  rewrite (get_corpus_properties_unfold reg self corpus_name corpora w Hreg), Hd.
  destruct (_ w) as [[r w'] t]. reflexivity.
Qed.

Lemma import_corpus_remote (self : CorpusImporter) (corpus_name : string)
    (local_path : option string) (corpora : list corpus) (d : corpus) (w : W) :
  LANGUAGE_CORPORA reg !! language self = Some corpora ->
  first_named corpus_name corpora = Some d ->
  location d = "remote" ->
  import_corpus reg self corpus_name local_path w
  = remote_branch self corpus_name (type d) w.
Proof.
  intros Hreg Hd Hloc.
  rewrite (import_corpus_found self corpus_name local_path corpora d w Hreg Hd), Hloc.
  reflexivity.
Qed.

(** The branch taken when the marker file is there: open, check, pull. *)
Lemma remote_branch_present (self : CorpusImporter) (corpus_name corpus_type : string)
    (w : W) :
  os_path_isfile (target_file self corpus_type corpus_name) w = true ->
  remote_branch self corpus_name corpus_type w =
    let dir := target_dir self corpus_type corpus_name in
    let probe := IsFile (target_file self corpus_type corpus_name) in
    let pulling := Log INFO ("Pulling latest '" +:+ corpus_name +:+ "' from '"
                             +:+ git_uri corpus_name +:+ "'.") in
    let failed e := Log ERROR ("Git pull of '" +:+ git_uri corpus_name +:+ "' failed: '"
                               +:+ exn_str e +:+ "'") in
    match Repo_init dir w with
    | (Raise e, w1) =>
        if is_CorpusImportError e then (Ok tt, w1, [probe; OpenRepo dir; failed e])
        else (Raise e, w1, [probe; OpenRepo dir])
    | (Ok repo, w1) =>
        if bare repo then (Raise AssertionError, w1, [probe; OpenRepo dir])
        else if Str.mem "origin" (remotes repo) then
          match Remote_pull dir w1 with
          | (Ok u, w2) => (Ok u, w2, [probe; OpenRepo dir; pulling; Pull dir])
          | (Raise e, w2) =>
              if is_CorpusImportError e
              then (Ok tt, w2, [probe; OpenRepo dir; pulling; Pull dir; failed e])
              else (Raise e, w2, [probe; OpenRepo dir; pulling; Pull dir])
          end
        else (Raise (AttributeError "'IterableList' object has no attribute 'origin'"),
              w1, [probe; OpenRepo dir])
    end.
Proof.
  intros Hfile. unfold remote_branch, remotes_origin, target_dir, target_file, type_dir,
    git_uri in *. mrun. rewrite Hfile. cbv beta iota zeta delta [negb].
  destruct (Repo_init _ w) as [[repo|e] w1].
  - destruct (bare repo); [reflexivity|]. cbv beta iota zeta delta [negb].
    destruct (Str.mem "origin" (remotes repo)); [|reflexivity].
    destruct (Remote_pull _ w1) as [[[]|e] w2]; [reflexivity|].
    destruct (is_CorpusImportError e); reflexivity.
  - destruct (is_CorpusImportError e); reflexivity.
Qed.

(** The branch taken when the marker file is missing and the type
    directory exists: clone. *)
Lemma remote_branch_absent (self : CorpusImporter) (corpus_name corpus_type : string)
    (w : W) :
  os_path_isfile (target_file self corpus_type corpus_name) w = false ->
  os_path_isdir (type_dir self corpus_type) w = true ->
  remote_branch self corpus_name corpus_type w =
    let dir := target_dir self corpus_type corpus_name in
    let probes := [IsFile (target_file self corpus_type corpus_name);
                   IsDir (type_dir self corpus_type)] in
    let cloning := Log INFO ("Cloning '" +:+ corpus_name +:+ "' from '"
                             +:+ git_uri corpus_name +:+ "'") in
    let failed e := Log ERROR ("Git clone of '" +:+ git_uri corpus_name +:+ "' failed: '"
                               +:+ exn_str e +:+ "'") in
    match Repo_clone_from (git_uri corpus_name) dir 1 w with
    | (Ok u, w1) => (Ok u, w1, probes ++ [cloning; CloneFrom (git_uri corpus_name) dir 1])
    | (Raise e, w1) =>
        if is_CorpusImportError e
        then (Ok tt, w1, probes ++ [cloning; CloneFrom (git_uri corpus_name) dir 1; failed e])
        else (Raise e, w1, probes ++ [cloning; CloneFrom (git_uri corpus_name) dir 1])
    end.
Proof.
  intros Hfile Hdir. unfold remote_branch, target_dir, target_file, type_dir, git_uri in *.
  mrun. rewrite Hfile. cbv beta iota zeta delta [negb]. rewrite Hdir.
  cbv beta iota zeta delta [negb].
  destruct (Repo_clone_from _ _ 1 w) as [[[]|e] w1]; [reflexivity|].
  destruct (is_CorpusImportError e); reflexivity.
Qed.

(** The same when the type directory has to be made first. *)
Lemma remote_branch_absent_mkdir (self : CorpusImporter)
    (corpus_name corpus_type : string) (w : W) :
  os_path_isfile (target_file self corpus_type corpus_name) w = false ->
  os_path_isdir (type_dir self corpus_type) w = false ->
  remote_branch self corpus_name corpus_type w =
    let dir := target_dir self corpus_type corpus_name in
    let probes := [IsFile (target_file self corpus_type corpus_name);
                   IsDir (type_dir self corpus_type);
                   MakeDirs (type_dir self corpus_type)] in
    let cloning := Log INFO ("Cloning '" +:+ corpus_name +:+ "' from '"
                             +:+ git_uri corpus_name +:+ "'") in
    let failed e := Log ERROR ("Git clone of '" +:+ git_uri corpus_name +:+ "' failed: '"
                               +:+ exn_str e +:+ "'") in
    match os_makedirs (type_dir self corpus_type) w with
    | (Raise e, w0) => (Raise e, w0, probes)
    | (Ok _, w0) =>
        match Repo_clone_from (git_uri corpus_name) dir 1 w0 with
        | (Ok u, w1) =>
            (Ok u, w1, probes ++ [cloning; CloneFrom (git_uri corpus_name) dir 1])
        | (Raise e, w1) =>
            if is_CorpusImportError e
            then (Ok tt, w1,
                  probes ++ [cloning; CloneFrom (git_uri corpus_name) dir 1; failed e])
            else (Raise e, w1, probes ++ [cloning; CloneFrom (git_uri corpus_name) dir 1])
        end
    end.
Proof.
  intros Hfile Hdir. unfold remote_branch, target_dir, target_file, type_dir, git_uri in *.
  mrun. rewrite Hfile. cbv beta iota zeta delta [negb]. rewrite Hdir.
  cbv beta iota zeta delta [negb].
  destruct (os_makedirs _ w) as [[[]|e0] w0]; [|reflexivity].
  destruct (Repo_clone_from _ _ 1 w0) as [[[]|e] w1]; [reflexivity|].
  destruct (is_CorpusImportError e); reflexivity.
Qed.

End Remote.


(** C1.  A failure of the clone or of the pull is an exception of GitPython,
    which is no [CorpusImportError]: the handlers of [import_corpus] do not
    take it, no error line is logged, and the exception reaches the
    caller. *)
Theorem git_failure_reaches_the_caller {W : Type} `{Platform W}
    (reg : Registry) (self : CorpusImporter) (corpus_name : string)
    (local_path : option string) (corpora : list corpus) (d : corpus) (w w' : W)
    (e : exn)
    (Hreg : LANGUAGE_CORPORA reg !! language self = Some corpora)
    (Hd : first_named corpus_name corpora = Some d)
    (Hloc : location d = "remote")
    (Hgit : is_CorpusImportError e = false) :
  let url := urljoin "https://github.com/cltk/" (corpus_name +:+ ".git") in
  let parent := make_cltk_path [language self; type d] in
  let dir := os_path.join parent [corpus_name] in
  let marker := os_path.join parent [corpus_name; "README.md"] in
  (os_path_isfile marker w = false ->
   os_path_isdir parent w = true ->
   Repo_clone_from url dir 1 w = (Raise e, w') ->
   import_corpus reg self corpus_name local_path w
   = (Raise e, w',
      [IsFile marker; IsDir parent;
       Log INFO ("Cloning '" +:+ corpus_name +:+ "' from '" +:+ url +:+ "'");
       CloneFrom url dir 1]))
  /\ (forall (repo : Repo) (w1 : W),
        os_path_isfile marker w = true ->
        Repo_init dir w = (Ok repo, w1) ->
        bare repo = false ->
        Str.mem "origin" (remotes repo) = true ->
        Remote_pull dir w1 = (Raise e, w') ->
        import_corpus reg self corpus_name local_path w
        = (Raise e, w',
           [IsFile marker; OpenRepo dir;
            Log INFO ("Pulling latest '" +:+ corpus_name +:+ "' from '" +:+ url +:+ "'.");
            Pull dir])).
Proof.
  intros url parent dir marker. subst url parent dir marker.
  rewrite (import_corpus_remote reg self corpus_name local_path corpora d w Hreg Hd Hloc).
  split.
  - intros Hfile Hdir Hclone.
    rewrite (remote_branch_absent self corpus_name (type d) w Hfile Hdir).
    cbv zeta. unfold target_dir, target_file, type_dir, git_uri.
    rewrite Hclone, Hgit. reflexivity.
  - intros repo w1 Hfile Hrepo Hbare Horigin Hpull.
    rewrite (remote_branch_present self corpus_name (type d) w Hfile).
    cbv zeta. unfold target_dir, target_file, type_dir, git_uri.
    rewrite Hrepo, Hbare, Horigin, Hpull, Hgit. reflexivity.
Qed.


(** ** The local branch *)

Section Local.
Context {W : Type} `{Platform W}.
Variable reg : Registry.

Lemma import_corpus_local (self : CorpusImporter) (corpus_name : string)
    (local_path : option string) (corpora : list corpus) (d : corpus) (w : W) :
  LANGUAGE_CORPORA reg !! language self = Some corpora ->
  first_named corpus_name corpora = Some d ->
  location d = "local" ->
  import_corpus reg self corpus_name local_path w = local_branch corpus_name local_path w.
Proof.
  intros Hreg Hd Hloc.
  rewrite (import_corpus_found reg self corpus_name local_path corpora d w Hreg Hd), Hloc.
  reflexivity.
Qed.

Lemma check_dir_name_run (corpus_name local_path legacy expected : string) (w : W) :
  check_dir_name corpus_name local_path legacy expected w
  = (Ok tt, w, dir_name_log corpus_name local_path legacy expected).
Proof.
  unfold check_dir_name, dir_name_log, when.
  destruct (String.eqb corpus_name legacy); [|reflexivity].
  destruct (String.eqb (os_path.split local_path).2 expected); reflexivity.
Qed.

Lemma dir_name_log_keep (f : event -> bool)
    (corpus_name local_path legacy expected : string) :
  (forall lvl msg, f (Log lvl msg) = false) ->
  keep f (dir_name_log corpus_name local_path legacy expected) = [].
Proof.
  intros Hlog. unfold dir_name_log.
  destruct (_ && _); rewrite ?keep_cons, ?Hlog; reflexivity.
Qed.

Lemma dir_name_logs_keep (f : event -> bool) (corpus_name local_path : string) :
  (forall lvl msg, f (Log lvl msg) = false) ->
  keep f (dir_name_logs corpus_name local_path) = [].
Proof.
  intros Hlog. unfold dir_name_logs.
  rewrite !keep_app, !dir_name_log_keep by exact Hlog. reflexivity.
Qed.

(** [_copy_dir_recursive], case by case. *)
Lemma copy_dir_recursive_unfold (src dst : string) (w : W) :
  _copy_dir_recursive src dst w =
    let copied := Log INFO ("Files copied from " +:+ src +:+ " to " +:+ dst) in
    match shutil_copytree src dst w with
    | (Ok u, w1) => (Ok u, w1, [CopyTree src dst; copied])
    | (Raise e, w1) =>
        if is_OSError e && bool_decide (exn_errno e = Some errno.ENOTDIR) then
          match shutil_copy src dst w1 with
          | (Ok u, w2) => (Ok u, w2, [CopyTree src dst; CopyFile src dst; copied])
          | (Raise e', w2) => (Raise e', w2, [CopyTree src dst; CopyFile src dst])
          end
        else (Raise e, w1, [CopyTree src dst])
    end.
Proof.
  unfold _copy_dir_recursive. mrun.
  destruct (shutil_copytree src dst w) as [[[]|e] w1]; [reflexivity|].
  destruct (is_OSError e); [|reflexivity]. cbn [andb].
  destruct (bool_decide (exn_errno e = Some errno.ENOTDIR)); [|reflexivity].
  destruct (shutil_copy src dst w1) as [[[]|e'] w2]; reflexivity.
Qed.

(** The local branch for a legacy corpus, once the staging directory is
    there: the destination is removed if it is a directory, and unless it
    still is one the copy is made, whose outcome is the outcome of the
    import. *)
Lemma local_branch_legacy (corpus_name p : string) (w : W) :
  Str.mem corpus_name ["phi5"; "phi7"; "tlg"] = true ->
  os_path_isdir originals_dir w = true ->
  local_branch corpus_name (Some p) w =
    let src := Str.rstrip os_path.pathsep p in
    let dst := tlg_originals_dir corpus_name in
    let pre := Log INFO ("Importing from local path: '" +:+ p +:+ "'")
               :: dir_name_logs corpus_name src ++ [IsDir originals_dir; IsDir dst] in
    let removed := Log INFO ("Removed directory at '" +:+ dst +:+ "'.") in
    if os_path_isdir dst w then
      match shutil_rmtree dst w with
      | (Raise e, w1) => (Raise e, w1, pre ++ [RmTree dst])
      | (Ok _, w1) =>
          if os_path_isdir dst w1
          then (Ok tt, w1, pre ++ [RmTree dst; removed; IsDir dst])
          else let '(r, w2, t) := _copy_dir_recursive src dst w1 in
               (r, w2, pre ++ [RmTree dst; removed; IsDir dst] ++ t)
      end
    else let '(r, w2, t) := _copy_dir_recursive src dst w in
         (r, w2, pre ++ [IsDir dst] ++ t).
Proof.
  intros Hlegacy Horig. unfold local_branch, originals_dir, tlg_originals_dir in *.
  rewrite Hlegacy. unfold rstrip_pathsep, Str.str_opt.
  cbv beta iota zeta delta [bind ret logger_info emit query].
  rewrite !check_dir_name_run, Horig.
  cbv beta iota zeta delta [negb when ret bind call logger_info emit].
  unfold dir_name_logs.
  destruct (os_path_isdir (make_cltk_path ["originals"; corpus_name]) w) eqn:Hdst.
  - destruct (shutil_rmtree _ w) as [[[]|e] w1].
    + destruct (os_path_isdir _ w1).
      * cbn [negb app]. rewrite <- !app_assoc. reflexivity.
      * cbn [negb]. destruct (_copy_dir_recursive _ _ w1) as [[r w2] t].
        cbn [app]. rewrite <- !app_assoc. reflexivity.
    + cbn [app]. rewrite <- !app_assoc. reflexivity.
  - rewrite Hdst. cbn [negb].
    destruct (_copy_dir_recursive _ _ w) as [[r w2] t].
    cbn [app]. rewrite <- !app_assoc. reflexivity.
Qed.

(** A legacy import either never gets to the copy, or ends as the copy
    ends, in the world the steps before it have left. *)
Lemma local_branch_reaches_copy (corpus_name p : string) (w : W) :
  Str.mem corpus_name ["phi5"; "phi7"; "tlg"] = true ->
  let src := Str.rstrip os_path.pathsep p in
  let dst := tlg_originals_dir corpus_name in
  copies (trace_of (local_branch corpus_name (Some p) w)) = []
  \/ exists pre w1,
       copies pre = []
       /\ local_branch corpus_name (Some p) w
          = let '(r, w2, t) := _copy_dir_recursive src dst w1 in (r, w2, pre ++ t).
Proof.
  intros Hlegacy src dst. subst src dst.
  unfold local_branch, originals_dir, tlg_originals_dir in *.
  rewrite Hlegacy. unfold rstrip_pathsep, Str.str_opt.
  cbv beta iota zeta delta [bind ret logger_info emit query].
  rewrite !check_dir_name_run.
  set (src := Str.rstrip os_path.pathsep p).
  set (dst := make_cltk_path ["originals"; corpus_name]).
  set (importing := Log INFO ("Importing from local path: '" +:+ p +:+ "'")).
  set (removed := Log INFO ("Removed directory at '" +:+ dst +:+ "'.")).
  destruct (os_path_isdir (make_cltk_path ["originals"]) w) eqn:Horig;
    cbv beta iota zeta delta [negb when ret bind call logger_info emit].
  - destruct (os_path_isdir dst w) eqn:Hdst.
    + destruct (shutil_rmtree dst w) as [[[]|e] w1].
      * destruct (os_path_isdir dst w1); cbn [negb].
        -- left. unfold trace_of. cbn [snd app]. sift.
           rewrite !dir_name_log_keep by reflexivity. reflexivity.
        -- right.
           exists (importing :: dir_name_logs corpus_name src
                   ++ [IsDir (make_cltk_path ["originals"]); IsDir dst; RmTree dst; removed;
                       IsDir dst]), w1.
           split; [sift; rewrite dir_name_logs_keep by reflexivity; reflexivity|].
           destruct (_copy_dir_recursive src dst w1) as [[r w2] t].
           cbn [app]. unfold dir_name_logs. rewrite <- !app_assoc. reflexivity.
      * left. unfold trace_of. cbn [snd app]. sift.
        rewrite !dir_name_log_keep by reflexivity. reflexivity.
    + right. rewrite Hdst. cbn [negb].
      exists (importing :: dir_name_logs corpus_name src
              ++ [IsDir (make_cltk_path ["originals"]); IsDir dst; IsDir dst]), w.
      split; [sift; rewrite dir_name_logs_keep by reflexivity; reflexivity|].
      destruct (_copy_dir_recursive src dst w) as [[r w2] t].
      cbn [app]. unfold dir_name_logs. rewrite <- !app_assoc. reflexivity.
  - destruct (os_makedirs (make_cltk_path ["originals"]) w) as [[[]|e0] w0].
    + set (wrote := Log INFO ("Wrote directory at '" +:+ make_cltk_path ["originals"]
                              +:+ "'.")).
      destruct (os_path_isdir dst w0) eqn:Hdst.
      * destruct (shutil_rmtree dst w0) as [[[]|e] w1].
        -- destruct (os_path_isdir dst w1); cbn [negb].
           ++ left. unfold trace_of. cbn [snd app]. sift.
              rewrite !dir_name_log_keep by reflexivity. reflexivity.
           ++ right.
              exists (importing :: dir_name_logs corpus_name src
                      ++ [IsDir (make_cltk_path ["originals"]);
                          MakeDirs (make_cltk_path ["originals"]); wrote;
                          IsDir dst; RmTree dst; removed; IsDir dst]), w1.
              split; [sift; rewrite dir_name_logs_keep by reflexivity; reflexivity|].
              destruct (_copy_dir_recursive src dst w1) as [[r w2] t].
              cbn [app]. unfold dir_name_logs. rewrite <- !app_assoc. reflexivity.
        -- left. unfold trace_of. cbn [snd app]. sift.
           rewrite !dir_name_log_keep by reflexivity. reflexivity.
      * right. rewrite Hdst. cbn [negb].
        exists (importing :: dir_name_logs corpus_name src
                ++ [IsDir (make_cltk_path ["originals"]);
                    MakeDirs (make_cltk_path ["originals"]); wrote; IsDir dst; IsDir dst]), w0.
        split; [sift; rewrite dir_name_logs_keep by reflexivity; reflexivity|].
        destruct (_copy_dir_recursive src dst w0) as [[r w2] t].
        cbn [app]. unfold dir_name_logs. rewrite <- !app_assoc. reflexivity.
    + left. unfold trace_of. cbn [snd app]. sift.
      rewrite !dir_name_log_keep by reflexivity. reflexivity.
Qed.

End Local.

(** C5, as the code has it.  For a LOCAL corpus imported without
    [local_path], the first line is logged with the path shown as [None];
    for a corpus other than [phi5], [phi7] and [tlg] the call then returns,
    having done nothing else; for one of these three it raises
    [AttributeError], as [None] has no [rstrip], before any call to the
    file system. *)
Theorem local_import_without_path {W : Type} `{Platform W}
    (reg : Registry) (self : CorpusImporter) (corpus_name : string)
    (corpora : list corpus) (d : corpus) (w : W)
    (Hreg : LANGUAGE_CORPORA reg !! language self = Some corpora)
    (Hd : first_named corpus_name corpora = Some d)
    (Hloc : location d = "local") :
  import_corpus reg self corpus_name None w =
    (if Str.mem corpus_name ["phi5"; "phi7"; "tlg"]
     then Raise (AttributeError "'NoneType' object has no attribute 'rstrip'")
     else Ok tt,
     w, [Log INFO "Importing from local path: 'None'"]).
Proof.
  rewrite (import_corpus_local reg self corpus_name None corpora d w Hreg Hd Hloc).
  unfold local_branch.
  destruct (Str.mem corpus_name ["phi5"; "phi7"; "tlg"]); reflexivity.
Qed.

(** C5, as stated, fails: ["tlg"] is a LOCAL corpus of the Greek registry,
    and importing it without [local_path] raises. *)
Lemma local_import_without_path_raises :
  first_named "tlg" (GREEK_CORPORA Sample.reg) = Some (mkCorpus "tlg" "local" "text")
  /\ import_corpus (H := Sample.P) Sample.reg Sample.greek "tlg" None Sample.w0
     = (Raise (AttributeError "'NoneType' object has no attribute 'rstrip'"),
        Sample.w0, [Log INFO "Importing from local path: 'None'"]).
Proof. split; reflexivity. Qed.

(** C6.  The importer strips [os.pathsep], the colon, not [os.sep]: a
    trailing slash stays on [local_path].  The directory-name check then
    sees an empty leaf and logs its complaint, which it does not for the
    same path without the slash, and the copy is made from the path with
    the slash. *)
Theorem trailing_separator_is_not_trimmed :
  Str.rstrip os_path.pathsep "/home/u/PHI5/" = "/home/u/PHI5/"
  /\ Str.rstrip os_path.os_sep "/home/u/PHI5/" = "/home/u/PHI5"
  /\ Str.rstrip os_path.pathsep "/home/u/PHI5:" = "/home/u/PHI5"
  /\ trace_of (import_corpus (H := Sample.P) Sample.reg Sample.latin "phi5"
                 (Some "/home/u/PHI5/") Sample.w0)
     = [Log INFO "Importing from local path: '/home/u/PHI5/'";
        Log INFO "Directory must be named 'PHI5'.";
        IsDir "/home/u/cltk_data/originals";
        IsDir "/home/u/cltk_data/originals/phi5";
        IsDir "/home/u/cltk_data/originals/phi5";
        CopyTree "/home/u/PHI5/" "/home/u/cltk_data/originals/phi5";
        Log INFO "Files copied from /home/u/PHI5/ to /home/u/cltk_data/originals/phi5"]
  /\ trace_of (import_corpus (H := Sample.P) Sample.reg Sample.latin "phi5"
                 (Some "/home/u/PHI5") Sample.w0)
     = [Log INFO "Importing from local path: '/home/u/PHI5'";
        IsDir "/home/u/cltk_data/originals";
        IsDir "/home/u/cltk_data/originals/phi5";
        IsDir "/home/u/cltk_data/originals/phi5";
        CopyTree "/home/u/PHI5" "/home/u/cltk_data/originals/phi5";
        Log INFO "Files copied from /home/u/PHI5 to /home/u/cltk_data/originals/phi5"].
Proof. repeat split; reflexivity. Qed.

(** C9.  A legacy LOCAL import either makes no copy at all, or ends as
    the copy ends: when [shutil.copytree] raises an [OSError] whose [errno]
    is [ENOTDIR] (the case of a source that is a file), the importer
    calls [shutil.copy] on the same two paths and the outcome of that call
    is the outcome of the import; any other exception of
    [shutil.copytree] is raised to the caller of [import_corpus], with
    nothing done after it.  The copy is made, in the world of the call,
    when the staging directory exists and the destination is not a
    directory. *)
Theorem copy_falls_back_on_enotdir {W : Type} `{Platform W}
    (reg : Registry) (self : CorpusImporter) (corpus_name p : string)
    (corpora : list corpus) (d : corpus) (w : W)
    (Hreg : LANGUAGE_CORPORA reg !! language self = Some corpora)
    (Hd : first_named corpus_name corpora = Some d)
    (Hloc : location d = "local")
    (Hlegacy : Str.mem corpus_name ["phi5"; "phi7"; "tlg"] = true) :
  let src := Str.rstrip os_path.pathsep p in
  let dst := make_cltk_path ["originals"; corpus_name] in
  let run := import_corpus reg self corpus_name (Some p) w in
  (copies (trace_of run) = []
   \/ exists pre w1, copies pre = [] /\ ends_as_the_copy run pre src dst w1)
  /\ (os_path_isdir (make_cltk_path ["originals"]) w = true ->
      os_path_isdir dst w = false ->
      exists pre, copies pre = [] /\ ends_as_the_copy run pre src dst w).
Proof.
  intros src dst run. subst src dst run.
  rewrite (import_corpus_local reg self corpus_name (Some p) corpora d w Hreg Hd Hloc).
  assert (Hends : forall pre w1,
             local_branch corpus_name (Some p) w
             = (let '(r, w2, t) := _copy_dir_recursive (Str.rstrip os_path.pathsep p)
                                     (make_cltk_path ["originals"; corpus_name]) w1 in
                (r, w2, pre ++ t)) ->
             ends_as_the_copy (local_branch corpus_name (Some p) w) pre
               (Str.rstrip os_path.pathsep p) (make_cltk_path ["originals"; corpus_name]) w1).
  { intros pre w1 ->. unfold ends_as_the_copy.
    rewrite copy_dir_recursive_unfold. cbv zeta.
    destruct (shutil_copytree _ _ w1) as [[[]|e] w2]; [reflexivity|].
    destruct (is_OSError e && bool_decide (exn_errno e = Some errno.ENOTDIR));
      [|reflexivity].
    destruct (shutil_copy _ _ w2) as [[[]|e'] w3]; reflexivity. }
  split.
  - destruct (local_branch_reaches_copy corpus_name p w Hlegacy)
      as [Hnone|(pre & w1 & Hpre & Hrun)]; [left; exact Hnone|].
    right. exists pre, w1. split; [exact Hpre|]. apply Hends. exact Hrun.
  - intros Horig Hfree. eexists. split; [|apply Hends].
    2: { rewrite (local_branch_legacy corpus_name p w Hlegacy Horig).
         cbv zeta. unfold tlg_originals_dir, originals_dir. rewrite Hfree.
         destruct (_copy_dir_recursive _ _ w) as [[r w2] t].
         rewrite app_assoc. reflexivity. }
    sift. rewrite dir_name_logs_keep by reflexivity. reflexivity.
Qed.

(** ** The directory tree *)

Lemma tree_lookup_fresh (p : list string) (new : TreeFS.node) :
  TreeFS.lookup p (TreeFS.fresh p new) = Some new.
Proof.
  induction p as [|x p IH]; [reflexivity|].
  cbn [TreeFS.fresh TreeFS.lookup]. rewrite lookup_singleton_eq. exact IH.
Qed.

Lemma tree_lookup_fresh_other (p q : list string) (new : TreeFS.node) :
  TreeFS.diverges q p = true -> TreeFS.lookup q (TreeFS.fresh p new) = None.
Proof.
  revert q. induction p as [|x p IH]; intros [|y q] Hdiv; try discriminate.
  cbn [TreeFS.diverges] in Hdiv. cbn [TreeFS.fresh TreeFS.lookup].
  destruct (String.eqb y x) eqn:Hyx.
  - apply String.eqb_eq in Hyx as ->. rewrite lookup_singleton_eq. now apply IH.
  - apply String.eqb_neq in Hyx. rewrite lookup_singleton_ne by congruence. reflexivity.
Qed.

Lemma tree_lookup_remove_same (p : list string) (n : TreeFS.node) :
  p <> [] -> TreeFS.lookup p (TreeFS.remove p n) = None.
Proof.
  revert n. induction p as [|x p IH]; intros n Hp; [congruence|].
  destruct n as [c|es]; [reflexivity|].
  cbn [TreeFS.remove]. destruct p as [|y p].
  - cbn [TreeFS.lookup]. now rewrite lookup_delete_eq.
  - destruct (es !! x) as [c|] eqn:Hx.
    + cbn [TreeFS.lookup]. rewrite lookup_insert_eq. now apply IH.
    + cbn [TreeFS.lookup]. now rewrite Hx.
Qed.

Lemma tree_lookup_remove_other (p q : list string) (n : TreeFS.node) :
  TreeFS.diverges q p = true ->
  TreeFS.lookup q (TreeFS.remove p n) = TreeFS.lookup q n.
Proof.
  revert q n. induction p as [|x p IH]; intros [|y q] n Hdiv; try discriminate.
  cbn [TreeFS.diverges] in Hdiv.
  destruct n as [c|es]; [reflexivity|].
  cbn [TreeFS.remove]. destruct p as [|z p].
  - destruct (String.eqb y x) eqn:Hyx.
    + destruct q; discriminate.
    + apply String.eqb_neq in Hyx. cbn [TreeFS.lookup].
      rewrite lookup_delete_ne by congruence. reflexivity.
  - destruct (es !! x) as [c|] eqn:Hx; [|reflexivity].
    cbn [TreeFS.lookup]. destruct (String.eqb y x) eqn:Hyx.
    + apply String.eqb_eq in Hyx as ->. rewrite lookup_insert_eq, Hx. now apply IH.
    + apply String.eqb_neq in Hyx. rewrite lookup_insert_ne by congruence. reflexivity.
Qed.

Lemma tree_lookup_create_same (p : list string) (new n n' : TreeFS.node) :
  TreeFS.create p new n = inr n' -> TreeFS.lookup p n' = Some new.
Proof.
  revert n n'. induction p as [|x p IH]; intros n n' Hc; [discriminate|].
  destruct n as [c|es]; [discriminate|]. cbn [TreeFS.create] in Hc.
  destruct (es !! x) as [c|] eqn:Hx.
  - destruct (TreeFS.create p new c) as [code|c'] eqn:Hc'; [discriminate|].
    injection Hc as <-. cbn [TreeFS.lookup]. rewrite lookup_insert_eq. now apply (IH c).
  - injection Hc as <-. cbn [TreeFS.lookup]. rewrite lookup_insert_eq.
    apply tree_lookup_fresh.
Qed.

Lemma tree_lookup_create_other (p q : list string) (new n n' : TreeFS.node) :
  TreeFS.create p new n = inr n' ->
  TreeFS.diverges q p = true ->
  TreeFS.lookup q n' = TreeFS.lookup q n.
Proof.
  revert q n n'. induction p as [|x p IH]; intros [|y q] n n' Hc Hdiv; try discriminate.
  cbn [TreeFS.diverges] in Hdiv.
  destruct n as [c|es]; [discriminate|]. cbn [TreeFS.create] in Hc.
  destruct (es !! x) as [c|] eqn:Hx.
  - destruct (TreeFS.create p new c) as [code|c'] eqn:Hc'; [discriminate|].
    injection Hc as <-. cbn [TreeFS.lookup].
    destruct (String.eqb y x) eqn:Hyx.
    + apply String.eqb_eq in Hyx as ->. rewrite lookup_insert_eq, Hx. now apply (IH q c).
    + apply String.eqb_neq in Hyx. rewrite lookup_insert_ne by congruence. reflexivity.
  - injection Hc as <-. cbn [TreeFS.lookup].
    destruct (String.eqb y x) eqn:Hyx.
    + apply String.eqb_eq in Hyx as ->. rewrite lookup_insert_eq, Hx.
      now apply tree_lookup_fresh_other.
    + apply String.eqb_neq in Hyx. rewrite lookup_insert_ne by congruence. reflexivity.
Qed.

Lemma tree_create_cons (x : string) (p : list string) (new : TreeFS.node)
    (es : gmap string TreeFS.node) :
  TreeFS.create (x :: p) new (TreeFS.Dir es) =
    match es !! x with
    | None => inr (TreeFS.Dir (<[x := TreeFS.fresh p new]> es))
    | Some c =>
        match TreeFS.create p new c with
        | inl code => inl code
        | inr c' => inr (TreeFS.Dir (<[x := c']> es))
        end
    end.
Proof. reflexivity. Qed.

(** Where something was removed, something can be made. *)
Lemma tree_create_after_remove (p : list string) (new n : TreeFS.node) :
  p <> [] ->
  is_Some (TreeFS.lookup p n) ->
  exists n', TreeFS.create p new (TreeFS.remove p n) = inr n'.
Proof.
  revert n. induction p as [|x p IH]; intros n Hp [old Hold]; [congruence|].
  destruct n as [c|es]; [discriminate|]. cbn [TreeFS.lookup] in Hold.
  destruct (es !! x) as [c|] eqn:Hx; [|discriminate].
  cbn [TreeFS.remove]. destruct p as [|y p].
  - rewrite tree_create_cons, lookup_delete_eq. eauto.
  - rewrite Hx, tree_create_cons, lookup_insert_eq.
    destruct (IH c) as [c' Hc']; [congruence | eauto |].
    rewrite Hc'. eauto.
Qed.

Lemma diverges_nonempty (p q : list string) : TreeFS.diverges p q = true -> q <> [].
Proof. destruct p, q; simpl; congruence. Qed.

(** ** Paths of the directory tree *)

Lemma string_app_assoc (a b c : string) : (a +:+ b) +:+ c = a +:+ (b +:+ c).
Proof.
  induction a as [|x a IH]; [reflexivity|].
  change (String x ((a +:+ b) +:+ c) = String x (a +:+ (b +:+ c))). now rewrite IH.
Qed.

Lemma split_on_sep_nonempty (p : string) : TreeFS.split_on_sep p <> [].
Proof.
  destruct p as [|c p]; simpl; [discriminate|].
  destruct (Ascii.eqb c os_path.sep); [discriminate|].
  destruct (TreeFS.split_on_sep p); discriminate.
Qed.

Lemma split_on_sep_no_sep (b : string) :
  TreeFS.no_sep b = true -> TreeFS.split_on_sep b = [b].
Proof.
  induction b as [|c b IH]; simpl; [reflexivity|].
  intros Hb. apply andb_true_iff in Hb as [Hc Hb].
  apply negb_true_iff in Hc. rewrite Hc, (IH Hb). reflexivity.
Qed.

Lemma split_on_sep_app (a b : string) :
  TreeFS.split_on_sep (a +:+ String os_path.sep b)
  = TreeFS.split_on_sep a ++ TreeFS.split_on_sep b.
Proof.
  induction a as [|c a IH].
  - reflexivity.
  - change (String c a +:+ String os_path.sep b)
      with (String c (a +:+ String os_path.sep b)).
    cbn [TreeFS.split_on_sep]. rewrite IH.
    destruct (Ascii.eqb c os_path.sep); [reflexivity|].
    destruct (TreeFS.split_on_sep a) as [|x xs] eqn:Ha; [|reflexivity].
    now apply split_on_sep_nonempty in Ha.
Qed.

Lemma last_char_app (s : string) (c : ascii) :
  Str.last_char s = Some c -> exists s', s = s' +:+ String c EmptyString.
Proof.
  induction s as [|x s IH]; [discriminate|].
  destruct s as [|y s].
  - intros [= ->]. now exists EmptyString.
  - intros Hlast. destruct (IH Hlast) as [s' Hs']. exists (String x s').
    change (String x (String y s) = String x (s' +:+ String c EmptyString)).
    now rewrite <- Hs'.
Qed.

Lemma walk_plain (seen : list string) (b : string) :
  TreeFS.plain b = true -> TreeFS.walk seen b = b :: seen.
Proof.
  unfold TreeFS.plain, TreeFS.walk. intros Hb.
  apply andb_true_iff in Hb as [Hb Hdd]. apply andb_true_iff in Hb as [_ Hed].
  apply negb_true_iff in Hed, Hdd. now rewrite Hed, Hdd.
Qed.

(** A plain name put after a separator adds one component. *)
Lemma resolve_sep_plain (a b : string) :
  TreeFS.plain b = true ->
  TreeFS.resolve (a +:+ String os_path.sep b) = TreeFS.resolve a ++ [b].
Proof.
  intros Hb. unfold TreeFS.resolve.
  rewrite split_on_sep_app, (split_on_sep_no_sep b), fold_left_app.
  - cbn [fold_left]. now rewrite (walk_plain _ b Hb).
  - unfold TreeFS.plain in Hb. apply andb_true_iff in Hb as [Hb _].
    now apply andb_true_iff in Hb as [Hb _].
Qed.

Lemma resolve_sep_end (a : string) :
  TreeFS.resolve (a +:+ String os_path.sep EmptyString) = TreeFS.resolve a.
Proof.
  unfold TreeFS.resolve. rewrite split_on_sep_app, fold_left_app. reflexivity.
Qed.

Lemma plain_not_absolute (b : string) :
  TreeFS.plain b = true -> Str.startswith os_path.os_sep b = false.
Proof.
  destruct b as [|c b]; [reflexivity|].
  unfold TreeFS.plain. cbn [TreeFS.no_sep]. intros Hb.
  repeat (apply andb_true_iff in Hb as [Hb _]).
  apply negb_true_iff, Ascii.eqb_neq in Hb.
  unfold Str.startswith, os_path.os_sep. cbn [String.prefix].
  destruct (ascii_dec "/" c) as [<-|_]; [|reflexivity].
  now contradiction Hb.
Qed.

(** [os.path.join] with a plain name goes one level down. *)
Lemma resolve_join2 (a b : string) :
  TreeFS.plain b = true ->
  TreeFS.resolve (os_path.join2 a b) = TreeFS.resolve a ++ [b].
Proof.
  intros Hb. unfold os_path.join2. rewrite (plain_not_absolute b Hb).
  destruct a as [|c a].
  - cbn [Str.is_empty orb]. change (EmptyString +:+ b) with b. unfold TreeFS.resolve.
    rewrite (split_on_sep_no_sep b).
    + cbn [fold_left]. now rewrite (walk_plain _ b Hb).
    + unfold TreeFS.plain in Hb. apply andb_true_iff in Hb as [Hb _].
      now apply andb_true_iff in Hb as [Hb _].
  - cbn [Str.is_empty orb]. unfold Str.endswith_char.
    destruct (Str.last_char (String c a)) as [l|] eqn:Hlast.
    + destruct (Ascii.eqb os_path.sep l) eqn:Hl.
      * apply Ascii.eqb_eq in Hl as <-.
        destruct (last_char_app _ _ Hlast) as [a' ->].
        rewrite string_app_assoc.
        change (String os_path.sep EmptyString +:+ b) with (String os_path.sep b).
        now rewrite (resolve_sep_plain a' b Hb), resolve_sep_end.
      * apply (resolve_sep_plain (String c a) b Hb).
    + apply (resolve_sep_plain (String c a) b Hb).
Qed.

Lemma tree_lookup_app (p q : list string) (n : TreeFS.node) :
  TreeFS.lookup (p ++ q) n
  = match TreeFS.lookup p n with
    | Some m => TreeFS.lookup q m
    | None => None
    end.
Proof.
  revert n. induction p as [|x p IH]; intros n; [reflexivity|].
  cbn [app TreeFS.lookup]. destruct n as [c|es]; [reflexivity|].
  destruct (es !! x); [apply IH | reflexivity].
Qed.

(** What has an entry is a directory. *)
Lemma tree_parent_is_dir (p : list string) (x : string) (n m : TreeFS.node) :
  TreeFS.lookup (p ++ [x]) n = Some m -> TreeFS.is_dir (TreeFS.lookup p n) = true.
Proof.
  rewrite tree_lookup_app. destruct (TreeFS.lookup p n) as [[c|es]|]; try discriminate.
  reflexivity.
Qed.

Lemma legacy_name_plain (corpus_name : string) :
  Str.mem corpus_name ["phi5"; "phi7"; "tlg"] = true -> TreeFS.plain corpus_name = true.
Proof.
  intros Hm. apply mem_true in Hm. simpl in Hm.
  decompose [or] Hm; subst; try reflexivity. contradiction.
Qed.


(** ** The statements above on the sample installation *)

Lemma list_corpora_never_raises_witness :
  result (__init__ "Greek" Sample.w0) = Ok Sample.greek
  /\ exists corpora,
       LANGUAGE_CORPORA Sample.reg !! language Sample.greek = Some corpora
       /\ list_corpora Sample.reg Sample.greek Sample.w0
          = (Ok (map name corpora), Sample.w0, []).
Proof.
  split; [reflexivity|].
  apply (list_corpora_never_raises Sample.reg "Greek"). reflexivity.
Defined.

(** ["tlg"] is listed twice for Greek: the lookup returns the first entry;
    ["tlg_e"] is not listed at all. *)
Lemma unknown_corpus_raises_before_any_action_witness :
  _get_corpus_properties (W := TreeFS.world) Sample.reg Sample.greek "tlg" Sample.w0
  = (Ok (mkCorpus "tlg" "local" "text"), Sample.w0, [])
  /\ exists msg,
       import_corpus (H := Sample.P) Sample.reg Sample.greek "tlg_e" None Sample.w0
       = (Raise (CorpusImportError msg), Sample.w0, [Log ERROR msg]).
Proof.
  destruct (unknown_corpus_raises_before_any_action (H := Sample.P)
              Sample.reg "GREEK" Sample.greek "tlg" None Sample.w0 eq_refl)
    as (corpora & Hreg & _ & Hfirst).
  destruct (unknown_corpus_raises_before_any_action (H := Sample.P)
              Sample.reg "GREEK" Sample.greek "tlg_e" None Sample.w0 eq_refl)
    as (corpora' & Hreg' & Hnone & _).
  assert (Hc : corpora = GREEK_CORPORA Sample.reg)
    by (change (Some (GREEK_CORPORA Sample.reg) = Some corpora) in Hreg; congruence).
  assert (Hc' : corpora' = GREEK_CORPORA Sample.reg)
    by (change (Some (GREEK_CORPORA Sample.reg) = Some corpora') in Hreg'; congruence).
  split.
  - apply (Hfirst [mkCorpus "greek_models_cltk" "remote" "model"]
             (mkCorpus "tlg" "local" "text")
             [mkCorpus "phi7" "local" "text"; mkCorpus "greek_custom" "local" "text";
              mkCorpus "tlg" "remote" "text"]).
    + exact Hc.
    + reflexivity.
    + intros c [<-|[]]. discriminate.
  - apply Hnone. subst corpora'. simpl.
    intros c Hin. decompose [or] Hin; subst; try discriminate; contradiction.
Defined.


(** The Latin models are not served: the clone fails, and so does the
    import.  With the host gone, the pull of the Greek models fails, and so
    does the import. *)
Lemma git_failure_reaches_the_caller_witness :
  import_corpus (H := Sample.P) Sample.reg Sample.latin "latin_models_cltk" None Sample.w0
  = (Raise (GitCommandError
              "repository 'https://github.com/cltk/latin_models_cltk.git' not found"),
     Sample.w0,
     [IsFile "/home/u/cltk_data/latin/model/latin_models_cltk/README.md";
      IsDir "/home/u/cltk_data/latin/model";
      Log INFO ("Cloning 'latin_models_cltk' from "
                +:+ "'https://github.com/cltk/latin_models_cltk.git'");
      CloneFrom "https://github.com/cltk/latin_models_cltk.git"
        "/home/u/cltk_data/latin/model/latin_models_cltk" 1])
  /\ result (import_corpus (H := Sample.P) Sample.reg Sample.greek "greek_models_cltk" None
               Sample.w1_offline)
     = Raise (GitCommandError
                "repository 'https://github.com/cltk/greek_models_cltk.git' not found").
Proof.
  split.
  - apply (proj1 (git_failure_reaches_the_caller (H := Sample.P) Sample.reg Sample.latin
                    "latin_models_cltk" None (LATIN_CORPORA Sample.reg)
                    (mkCorpus "latin_models_cltk" "remote" "model") Sample.w0 Sample.w0
                    (GitCommandError
                       "repository 'https://github.com/cltk/latin_models_cltk.git' not found")
                    eq_refl eq_refl eq_refl eq_refl)); reflexivity.
  - rewrite (proj2 (git_failure_reaches_the_caller (H := Sample.P) Sample.reg Sample.greek
                      "greek_models_cltk" None (GREEK_CORPORA Sample.reg)
                      (mkCorpus "greek_models_cltk" "remote" "model")
                      Sample.w1_offline Sample.w1_offline
                      (GitCommandError
                         "repository 'https://github.com/cltk/greek_models_cltk.git' not found")
                      eq_refl eq_refl eq_refl eq_refl)
               (mkRepo "/home/u/cltk_data/greek/model/greek_models_cltk" false ["origin"])
               Sample.w1_offline eq_refl eq_refl eq_refl eq_refl eq_refl).
    reflexivity.
Defined.



(** ["greek_custom"] is LOCAL and no legacy corpus: without a path its
    import logs one line and returns. *)
Lemma local_import_without_path_witness :
  first_named "greek_custom" (GREEK_CORPORA Sample.reg)
  = Some (mkCorpus "greek_custom" "local" "text")
  /\ import_corpus (H := Sample.P) Sample.reg Sample.greek "greek_custom" None Sample.w0
     = (Ok tt, Sample.w0, [Log INFO "Importing from local path: 'None'"]).
Proof.
  split; [reflexivity|].
  exact (local_import_without_path (H := Sample.P) Sample.reg Sample.greek "greek_custom"
           (GREEK_CORPORA Sample.reg) (mkCorpus "greek_custom" "local" "text") Sample.w0
           eq_refl eq_refl eq_refl).
Defined.

(** [notes.txt] is a file: the tree copy fails with [ENOTDIR] and the file
    is copied onto the destination; [missing] does not exist: the tree
    copy fails with [ENOENT], and so does the import. *)
Lemma copy_falls_back_on_enotdir_witness :
  (exists pre,
     copies pre = []
     /\ ends_as_the_copy (H := Sample.P)
          (import_corpus (H := Sample.P) Sample.reg Sample.latin "phi5"
             (Some "/home/u/notes.txt") Sample.w0)
          pre "/home/u/notes.txt" "/home/u/cltk_data/originals/phi5" Sample.w0)
  /\ TreeFS.copytree "/home/u/notes.txt" "/home/u/cltk_data/originals/phi5" Sample.w0
     = (Raise (OSError (Some errno.ENOTDIR) "/home/u/notes.txt"), Sample.w0)
  /\ actions (trace_of (import_corpus (H := Sample.P) Sample.reg Sample.latin "phi5"
                          (Some "/home/u/notes.txt") Sample.w0))
     = [CopyTree "/home/u/notes.txt" "/home/u/cltk_data/originals/phi5";
        CopyFile "/home/u/notes.txt" "/home/u/cltk_data/originals/phi5"]
  /\ TreeFS.lookup ["home"; "u"; "cltk_data"; "originals"; "phi5"]
       (TreeFS.root (world_of (import_corpus (H := Sample.P) Sample.reg Sample.latin "phi5"
                                 (Some "/home/u/notes.txt") Sample.w0)))
     = Some (TreeFS.File "notes")
  /\ result (import_corpus (H := Sample.P) Sample.reg Sample.latin "phi5"
               (Some "/home/u/missing") Sample.w0)
     = Raise (OSError (Some errno.ENOENT) "/home/u/missing").
Proof.
  split; [|repeat split; reflexivity].
  exact (proj2 (copy_falls_back_on_enotdir (H := Sample.P) Sample.reg Sample.latin "phi5"
                  "/home/u/notes.txt" (LATIN_CORPORA Sample.reg)
                  (mkCorpus "phi5" "local" "text") Sample.w0
                  eq_refl eq_refl eq_refl eq_refl)
           eq_refl eq_refl).
Defined.

(** * Further properties *)

(** ** The registry and the constructor *)

Lemma lower_char_idempotent (c : ascii) :
  Str.lower_char (Str.lower_char c) = Str.lower_char c.
Proof.
  destruct c as [[] [] [] [] [] [] [] []]; reflexivity.
Qed.

Lemma lower_idempotent (s : string) : Str.lower (Str.lower s) = Str.lower s.
Proof.
  induction s as [|c s IH]; [reflexivity|].
  cbn [Str.lower]. now rewrite lower_char_idempotent, IH.
Qed.

Lemma first_named_listed (corpus_name : string) (corpora : list corpus) :
  Str.mem corpus_name (map name corpora) = true ->
  exists d, first_named corpus_name corpora = Some d.
Proof.
  induction corpora as [|c corpora IH]; [discriminate|].
  cbn [map Str.mem first_named].
  destruct (String.eqb (name c) corpus_name); cbn [orb]; eauto.
Qed.

Lemma first_named_unlisted (corpus_name : string) (corpora : list corpus) :
  Str.mem corpus_name (map name corpora) = false ->
  first_named corpus_name corpora = None.
Proof.
  induction corpora as [|c corpora IH]; [reflexivity|].
  cbn [map Str.mem first_named].
  destruct (String.eqb (name c) corpus_name); cbn [orb]; [discriminate | exact IH].
Qed.

(** X1.  An importer that was constructed holds a supported language in
    lower case, and constructing an importer from that language gives the
    same importer back. *)
Theorem constructed_importer_is_normal {W : Type} (lang : string) (self : CorpusImporter)
    (w : W)
    (Hinit : result (__init__ lang w) = Ok self) :
  In (language self) AVAILABLE_LANGUAGES
  /\ Str.lower (language self) = language self
  /\ __init__ (language self) w = (Ok self, w, []).
Proof.
  destruct (init_ok_inv lang self w Hinit) as [-> Hm]. cbn [language] in *.
  split; [now apply mem_true|]. split; [apply lower_idempotent|].
  rewrite init_unfold, lower_idempotent, Hm. reflexivity.
Qed.

(** X2.  For a constructed importer, the names [list_corpora] returns are
    exactly the names [_get_corpus_properties] finds: for a listed name it
    returns a descriptor of that name, silently; for any other name it logs
    an error and raises [CorpusImportError]. *)
Theorem listed_names_are_the_importable_ones {W : Type} (reg : Registry) (lang : string)
    (self : CorpusImporter) (corpus_name : string) (w : W)
    (Hinit : result (__init__ lang w) = Ok self) :
  exists names,
    list_corpora reg self w = (Ok names, w, [])
    /\ if Str.mem corpus_name names
       then exists d,
              _get_corpus_properties reg self corpus_name w = (Ok d, w, [])
              /\ name d = corpus_name
       else exists msg,
              _get_corpus_properties reg self corpus_name w
              = (Raise (CorpusImportError msg), w, [Log ERROR msg]).
Proof.
  destruct (init_ok_corpora reg lang self w Hinit) as [corpora Hreg].
  exists (map name corpora). split.
  - unfold list_corpora, getitem. rewrite Hreg. reflexivity.
  - rewrite (get_corpus_properties_unfold reg self corpus_name corpora w Hreg).
    destruct (Str.mem corpus_name (map name corpora)) eqn:Hm.
    + destruct (first_named_listed corpus_name corpora Hm) as [d Hd]. rewrite Hd.
      exists d. split; [reflexivity|]. now apply (first_named_some corpus_name corpora d).
    + rewrite (first_named_unlisted corpus_name corpora Hm). eexists. reflexivity.
Qed.


(** X4.  A descriptor whose location is neither ['remote'] nor ['local'],
    and a LOCAL descriptor of a corpus other than [phi5], [phi7] and [tlg],
    are imported without any call to the file system or to the network,
    whatever [local_path] is: the import returns, the world is as it was,
    and at most the line showing the local path is logged. *)
Theorem silent_imports {W : Type} `{Platform W} (reg : Registry)
    (self : CorpusImporter) (corpus_name : string) (local_path : option string)
    (corpora : list corpus) (d : corpus) (w : W)
    (Hreg : LANGUAGE_CORPORA reg !! language self = Some corpora)
    (Hd : first_named corpus_name corpora = Some d)
    (Hremote : String.eqb (location d) "remote" = false)
    (Hquiet : String.eqb (location d) "local" = false
              \/ Str.mem corpus_name ["phi5"; "phi7"; "tlg"] = false) :
  import_corpus reg self corpus_name local_path w
  = (Ok tt, w,
     if String.eqb (location d) "local"
     then [Log INFO ("Importing from local path: '" +:+ Str.str_opt local_path +:+ "'")]
     else []).
Proof.
  rewrite (import_corpus_found reg self corpus_name local_path corpora d w Hreg Hd), Hremote.
  destruct (String.eqb (location d) "local") eqn:Hlocal; [|reflexivity].
  destruct Hquiet as [Hq|Hq]; [discriminate|].
  unfold local_branch. rewrite Hq. reflexivity.
Qed.

(** ** More on the remote branch *)


(** X6.  A REMOTE import calls nothing but the logger, the test of its
    marker file, the test and the making of its type directory, the clone
    of its URL into its target directory with depth 1, and the opening and
    the pull of the working copy there; in particular it never removes or
    copies a file. *)
Theorem remote_import_stays_in_its_directory {W : Type} `{Platform W}
    (reg : Registry) (self : CorpusImporter) (corpus_name : string)
    (local_path : option string) (corpora : list corpus) (d : corpus) (w : W)
    (Hreg : LANGUAGE_CORPORA reg !! language self = Some corpora)
    (Hd : first_named corpus_name corpora = Some d)
    (Hloc : location d = "remote") :
  forallb (remote_call (git_uri corpus_name) (type_dir self (type d))
             (target_dir self (type d) corpus_name)
             (target_file self (type d) corpus_name))
    (trace_of (import_corpus reg self corpus_name local_path w)) = true.
Proof.
  rewrite (import_corpus_remote reg self corpus_name local_path corpora d w Hreg Hd Hloc).
  destruct (os_path_isfile (target_file self (type d) corpus_name) w) eqn:Hfile.
  - rewrite (remote_branch_present self corpus_name (type d) w Hfile). cbv zeta.
    destruct (Repo_init _ w) as [[repo|e] w1].
    + destruct (bare repo);
        [unfold trace_of; cbn [snd forallb remote_call];
         rewrite !String.eqb_refl; reflexivity|].
      destruct (Str.mem "origin" (remotes repo));
        [|unfold trace_of; cbn [snd forallb remote_call];
          rewrite !String.eqb_refl; reflexivity].
      destruct (Remote_pull _ w1) as [[[]|e] w2];
        [|destruct (is_CorpusImportError e)];
        unfold trace_of; cbn [snd forallb remote_call];
        rewrite !String.eqb_refl; reflexivity.
    + destruct (is_CorpusImportError e);
        unfold trace_of; cbn [snd forallb remote_call];
        rewrite !String.eqb_refl; reflexivity.
  - destruct (os_path_isdir (type_dir self (type d)) w) eqn:Hdir.
    + rewrite (remote_branch_absent self corpus_name (type d) w Hfile Hdir). cbv zeta.
      destruct (Repo_clone_from _ _ 1 w) as [[[]|e] w1];
        [|destruct (is_CorpusImportError e)];
        unfold trace_of; cbn [snd app forallb remote_call];
        rewrite !String.eqb_refl; reflexivity.
    + rewrite (remote_branch_absent_mkdir self corpus_name (type d) w Hfile Hdir). cbv zeta.
      destruct (os_makedirs _ w) as [[[]|e0] w0];
        [|unfold trace_of; cbn [snd app forallb remote_call];
          rewrite !String.eqb_refl; reflexivity].
      destruct (Repo_clone_from _ _ 1 w0) as [[[]|e] w1];
        [|destruct (is_CorpusImportError e)];
        unfold trace_of; cbn [snd app forallb remote_call];
        rewrite !String.eqb_refl; reflexivity.
Qed.

(** ** More on the local branch *)

(** Take the outcomes of the calls of the platform apart, outermost
    first. *)
Ltac split_calls :=
  repeat (first
    [ match goal with
      | |- context [os_path_isdir ?p ?w] => destruct (os_path_isdir p w)
      end
    | match goal with
      | |- context [os_makedirs ?p ?w] => destruct (os_makedirs p w) as [[[]|?] ?]
      end
    | match goal with
      | |- context [shutil_rmtree ?p ?w] => destruct (shutil_rmtree p w) as [[[]|?] ?]
      end
    | match goal with
      | |- context [shutil_copytree ?a ?b ?w] =>
          destruct (shutil_copytree a b w) as [[[]|?] ?]
      end
    | match goal with
      | |- context [shutil_copy ?a ?b ?w] => destruct (shutil_copy a b w) as [[[]|?] ?]
      end
    | match goal with
      | |- context [is_OSError ?e] => destruct (is_OSError e)
      end
    | match goal with
      | |- context [bool_decide ?P] => destruct (bool_decide P)
      end ];
    cbv beta iota zeta delta [negb]).

Section LocalCalls.
Context {W : Type} `{Platform W}.
Variable reg : Registry.

(** The local branch for a legacy corpus: the first line, the lines of the
    directory-name checks, and then the staging and the copy. *)
Lemma local_branch_split (corpus_name p : string) (w : W) :
  Str.mem corpus_name ["phi5"; "phi7"; "tlg"] = true ->
  local_branch corpus_name (Some p) w =
    let src := Str.rstrip os_path.pathsep p in
    let '(r, w', t) := stage_and_copy corpus_name src w in
    (r, w',
     Log INFO ("Importing from local path: '" +:+ p +:+ "'")
     :: dir_name_logs corpus_name src ++ t).
Proof.
  intros Hlegacy. cbv zeta.
  transitivity
    ((logger_info ("Importing from local path: '" +:+ p +:+ "'") ;;
      src <- ret (Str.rstrip os_path.pathsep p) ;;
      check_dir_name corpus_name src "phi5" "PHI5" ;;
      check_dir_name corpus_name src "phi7" "PHI7" ;;
      check_dir_name corpus_name src "tlg" "TLG_E" ;;
      stage_and_copy corpus_name src) w).
  - unfold local_branch. rewrite Hlegacy. reflexivity.
  - cbv beta iota zeta delta [bind ret logger_info emit].
    rewrite !check_dir_name_run.
    destruct (stage_and_copy corpus_name _ w) as [[r w'] t].
    cbn [app]. unfold dir_name_logs. rewrite <- !app_assoc. reflexivity.
Qed.

Lemma stage_and_copy_calls (corpus_name src : string) (w : W) :
  forallb (local_call originals_dir src (tlg_originals_dir corpus_name))
    (trace_of (stage_and_copy corpus_name src w)) = true.
Proof.
  unfold stage_and_copy, _copy_dir_recursive, originals_dir, tlg_originals_dir.
  mrun. split_calls;
    unfold trace_of; cbn [snd app forallb local_call];
    rewrite ?String.eqb_refl, ?orb_true_r; reflexivity.
Qed.

Lemma dir_name_logs_calls (staging src dst corpus_name local_path : string) :
  forallb (local_call staging src dst) (dir_name_logs corpus_name local_path) = true.
Proof.
  unfold dir_name_logs, dir_name_log.
  repeat match goal with |- context [if ?c then _ else _] => destruct c end;
    reflexivity.
Qed.

End LocalCalls.

Lemma dir_name_logs_legacy (corpus_name local_path : string) :
  Str.mem corpus_name ["phi5"; "phi7"; "tlg"] = true ->
  dir_name_logs corpus_name local_path
  = (if String.eqb (os_path.split local_path).2 (expected_dir_name corpus_name) then []
     else [Log INFO ("Directory must be named '" +:+ expected_dir_name corpus_name
                     +:+ "'.")]).
Proof.
  intros Hm. apply mem_true in Hm. simpl in Hm.
  set (leaf := (os_path.split local_path).2).
  unfold dir_name_logs, dir_name_log. fold leaf.
  destruct Hm as [<-|[<-|[<-|[]]]].
  - change (expected_dir_name "phi5") with "PHI5".
    destruct (String.eqb leaf "PHI5"); reflexivity.
  - change (expected_dir_name "phi7") with "PHI7".
    destruct (String.eqb leaf "PHI7"); reflexivity.
  - change (expected_dir_name "tlg") with "TLG_E".
    destruct (String.eqb leaf "TLG_E"); reflexivity.
Qed.

(** X7.  A LOCAL import calls nothing but the logger, the tests of the
    staging directory and of its destination [originals/<corpus_name>],
    the making of the staging directory, the removal of that destination,
    and the copies from the stripped [local_path] to that destination; in
    particular it removes nothing else and never goes to the network. *)
Theorem local_import_stays_in_its_destination {W : Type} `{Platform W}
    (reg : Registry) (self : CorpusImporter) (corpus_name : string)
    (local_path : option string) (corpora : list corpus) (d : corpus) (w : W)
    (Hreg : LANGUAGE_CORPORA reg !! language self = Some corpora)
    (Hd : first_named corpus_name corpora = Some d)
    (Hloc : location d = "local") :
  let src := match local_path with
             | Some p => Str.rstrip os_path.pathsep p
             | None => EmptyString
             end in
  forallb (local_call (make_cltk_path ["originals"]) src
             (make_cltk_path ["originals"; corpus_name]))
    (trace_of (import_corpus reg self corpus_name local_path w)) = true.
Proof.
  intros src. subst src.
  rewrite (import_corpus_local reg self corpus_name local_path corpora d w Hreg Hd Hloc).
  destruct (Str.mem corpus_name ["phi5"; "phi7"; "tlg"]) eqn:Hlegacy.
  - destruct local_path as [p|].
    + rewrite (local_branch_split corpus_name p w Hlegacy). cbv zeta.
      pose proof (stage_and_copy_calls corpus_name (Str.rstrip os_path.pathsep p) w)
        as Hcalls.
      destruct (stage_and_copy corpus_name _ w) as [[r w'] t].
      unfold trace_of in *. cbn [snd forallb local_call] in *.
      rewrite forallb_app, dir_name_logs_calls. exact Hcalls.
    + unfold local_branch. rewrite Hlegacy. reflexivity.
  - unfold local_branch. rewrite Hlegacy. reflexivity.
Qed.

(** X8.  The directory-name check of a legacy import only logs: the import
    is the staging and the copy, run in the world of the call, after the
    line showing the local path and, exactly when the leaf of the stripped
    path is not the expected name, one line saying what the directory must
    be named. *)
Theorem directory_name_check_only_logs {W : Type} `{Platform W}
    (reg : Registry) (self : CorpusImporter) (corpus_name p : string)
    (corpora : list corpus) (d : corpus) (w : W)
    (Hreg : LANGUAGE_CORPORA reg !! language self = Some corpora)
    (Hd : first_named corpus_name corpora = Some d)
    (Hloc : location d = "local")
    (Hlegacy : Str.mem corpus_name ["phi5"; "phi7"; "tlg"] = true) :
  let src := Str.rstrip os_path.pathsep p in
  let expected := expected_dir_name corpus_name in
  let rest := stage_and_copy corpus_name src w in
  import_corpus reg self corpus_name (Some p) w
  = (result rest, world_of rest,
     Log INFO ("Importing from local path: '" +:+ p +:+ "'")
     :: (if String.eqb (os_path.split src).2 expected then []
         else [Log INFO ("Directory must be named '" +:+ expected +:+ "'.")])
     ++ trace_of rest).
Proof.
  intros src expected rest. subst src expected rest.
  rewrite (import_corpus_local reg self corpus_name (Some p) corpora d w Hreg Hd Hloc).
  rewrite (local_branch_split corpus_name p w Hlegacy). cbv zeta.
  rewrite (dir_name_logs_legacy corpus_name _ Hlegacy).
  destruct (stage_and_copy corpus_name _ w) as [[r w'] t]. reflexivity.
Qed.

(** ** More on the directory tree *)

(** Read the calls of the platform on the directory tree. *)
Ltac on_tree data_root :=
  change (make_cltk_path (Platform := TreeFS.platform data_root))
    with (os_path.join data_root) in *;
  change (os_path_isdir (Platform := TreeFS.platform data_root)) with TreeFS.isdir in *;
  change (os_makedirs (Platform := TreeFS.platform data_root)) with TreeFS.makedirs in *;
  change (shutil_rmtree (Platform := TreeFS.platform data_root)) with TreeFS.rmtree in *;
  change (shutil_copytree (Platform := TreeFS.platform data_root))
    with TreeFS.copytree in *;
  change (shutil_copy (Platform := TreeFS.platform data_root)) with TreeFS.copy in *.

Lemma set_root_same (w : TreeFS.world) : TreeFS.set_root (TreeFS.root w) w = w.
Proof. destruct w; reflexivity. Qed.

Lemma set_root_twice (r r' : TreeFS.node) (w : TreeFS.world) :
  TreeFS.set_root r' (TreeFS.set_root r w) = TreeFS.set_root r' w.
Proof. reflexivity. Qed.

(** Removing an entry and putting the same node back restores the tree. *)
Lemma tree_restore (p : list string) (v n : TreeFS.node) :
  p <> [] ->
  TreeFS.lookup p n = Some v ->
  TreeFS.create p v (TreeFS.remove p n) = inr n.
Proof.
  revert n. induction p as [|x p IH]; intros n Hp Hv; [congruence|].
  destruct n as [c|es]; [discriminate|]. cbn [TreeFS.lookup] in Hv.
  destruct (es !! x) as [c|] eqn:Hx; [|discriminate].
  cbn [TreeFS.remove]. destruct p as [|y p].
  - injection Hv as ->. rewrite tree_create_cons, lookup_delete_eq.
    cbn [TreeFS.fresh]. now rewrite insert_delete_id.
  - rewrite Hx, tree_create_cons, lookup_insert_eq.
    rewrite (IH c) by (congruence || exact Hv).
    now rewrite insert_insert_eq, insert_id.
Qed.

(** In a directory, a name that is free can be made. *)
Lemma tree_create_in_dir (p : list string) (x : string) (new n : TreeFS.node) :
  TreeFS.is_dir (TreeFS.lookup p n) = true ->
  TreeFS.lookup (p ++ [x]) n = None ->
  exists n', TreeFS.create (p ++ [x]) new n = inr n'.
Proof.
  revert n. induction p as [|y p IH]; intros n Hdir Hfree.
  - cbn [app TreeFS.lookup TreeFS.is_dir] in *. destruct n as [c|es]; [discriminate|].
    rewrite tree_create_cons. destruct (es !! x); [discriminate | eauto].
  - cbn [app TreeFS.lookup] in *. destruct n as [c|es]; [discriminate|].
    rewrite tree_create_cons. destruct (es !! y) as [c|]; [|discriminate].
    destruct (IH c Hdir Hfree) as [c' Hc']. rewrite Hc'. eauto.
Qed.

(** In a directory, any name can be written. *)
Lemma tree_put_in_dir (p : list string) (x : string) (new n : TreeFS.node) :
  TreeFS.is_dir (TreeFS.lookup p n) = true ->
  exists n', TreeFS.put (p ++ [x]) new n = inr n'
             /\ TreeFS.lookup (p ++ [x]) n' = Some new.
Proof.
  revert n. induction p as [|y p IH]; intros n Hdir.
  - cbn [app TreeFS.lookup TreeFS.is_dir] in *. destruct n as [c|es]; [discriminate|].
    eexists. split; [reflexivity|]. cbn [TreeFS.lookup]. now rewrite lookup_insert_eq.
  - cbn [app TreeFS.lookup] in Hdir. destruct n as [c|es]; [discriminate|].
    destruct (es !! y) as [c|] eqn:Hy; [|discriminate].
    destruct (IH c Hdir) as (c' & Hc' & Hl).
    exists (TreeFS.Dir (<[y := c']> es)). split.
    + change ((y :: p) ++ [x]) with (y :: (p ++ [x])). cbn [TreeFS.put].
      destruct (p ++ [x]) as [|z q] eqn:Hq; [now destruct p|].
      rewrite Hy, Hc'. reflexivity.
    + cbn [app TreeFS.lookup]. rewrite lookup_insert_eq. exact Hl.
Qed.

Section TreeRuns.
Variable data_root : string.
Variables corpus_name src : string.
Variable w : TreeFS.world.
Hypothesis Hplain : TreeFS.plain corpus_name = true.

Let staging : string := os_path.join data_root ["originals"].
Let dst : string := os_path.join data_root ["originals"; corpus_name].

Lemma resolve_destination :
  TreeFS.resolve dst = TreeFS.resolve staging ++ [corpus_name].
Proof. apply (resolve_join2 (os_path.join2 data_root "originals") corpus_name Hplain). Qed.

(** The destination is a directory and the source a directory apart from
    it: remove, then copy. *)
Lemma tree_stage_and_copy_replace (old new : gmap string TreeFS.node) :
  TreeFS.lookup (TreeFS.resolve dst) (TreeFS.root w) = Some (TreeFS.Dir old) ->
  TreeFS.lookup (TreeFS.resolve src) (TreeFS.root w) = Some (TreeFS.Dir new) ->
  TreeFS.diverges (TreeFS.resolve src) (TreeFS.resolve dst) = true ->
  exists r,
    TreeFS.create (TreeFS.resolve dst) (TreeFS.Dir new)
      (TreeFS.remove (TreeFS.resolve dst) (TreeFS.root w)) = inr r
    /\ stage_and_copy (H := TreeFS.platform data_root) corpus_name src w
       = (Ok tt, TreeFS.set_root r w,
          [IsDir staging; IsDir dst; RmTree dst;
           Log INFO ("Removed directory at '" +:+ dst +:+ "'.");
           IsDir dst; CopyTree src dst;
           Log INFO ("Files copied from " +:+ src +:+ " to " +:+ dst)]).
Proof.
  intros Hdst Hsrc Hapart.
  assert (Hpd : TreeFS.resolve dst <> []) by (eapply diverges_nonempty; exact Hapart).
  destruct (tree_create_after_remove (TreeFS.resolve dst) (TreeFS.Dir new) (TreeFS.root w) Hpd)
    as [r Hr]; [rewrite Hdst; eauto|].
  exists r. split; [exact Hr|].
  assert (Hstaging : TreeFS.isdir staging w = true).
  { unfold TreeFS.isdir. apply (tree_parent_is_dir _ corpus_name _ (TreeFS.Dir old)).
    rewrite <- resolve_destination. exact Hdst. }
  assert (Hisdir : TreeFS.isdir dst w = true)
    by (unfold TreeFS.isdir; rewrite Hdst; reflexivity).
  assert (Hrm : TreeFS.rmtree dst w
                = (Ok tt, TreeFS.set_root (TreeFS.remove (TreeFS.resolve dst) (TreeFS.root w)) w)).
  { unfold TreeFS.rmtree. rewrite Hdst.
    destruct (TreeFS.resolve dst); [congruence | reflexivity]. }
  assert (Hgone : TreeFS.isdir dst
                    (TreeFS.set_root (TreeFS.remove (TreeFS.resolve dst) (TreeFS.root w)) w)
                  = false).
  { unfold TreeFS.isdir. cbn [TreeFS.set_root TreeFS.root].
    rewrite tree_lookup_remove_same by exact Hpd. reflexivity. }
  assert (Hcopy : TreeFS.copytree src dst
                    (TreeFS.set_root (TreeFS.remove (TreeFS.resolve dst) (TreeFS.root w)) w)
                  = (Ok tt, TreeFS.set_root r w)).
  { unfold TreeFS.copytree. cbn [TreeFS.set_root TreeFS.root].
    rewrite (tree_lookup_remove_other _ _ (TreeFS.root w) Hapart), Hsrc, Hr. reflexivity. }
  unfold stage_and_copy. on_tree data_root. fold staging dst.
  mrun. rewrite Hstaging. cbv beta iota zeta delta [negb]. rewrite Hisdir, Hrm.
  cbv beta iota zeta delta [negb]. rewrite Hgone. cbv beta iota zeta delta [negb].
  rewrite copy_dir_recursive_unfold. on_tree data_root. cbv zeta.
  rewrite Hcopy. reflexivity.
Qed.

End TreeRuns.

Section TreeFirstRuns.
Variable data_root : string.
Variables corpus_name src : string.
Variable w : TreeFS.world.
Hypothesis Hplain : TreeFS.plain corpus_name = true.

Let staging : string := os_path.join data_root ["originals"].
Let dst : string := os_path.join data_root ["originals"; corpus_name].

Hypothesis Hstaging : TreeFS.isdir staging w = true.
Hypothesis Hfree : TreeFS.lookup (TreeFS.resolve dst) (TreeFS.root w) = None.

(** The destination is free and the source a directory: copy. *)
Lemma tree_stage_and_copy_fresh (new : gmap string TreeFS.node) :
  TreeFS.lookup (TreeFS.resolve src) (TreeFS.root w) = Some (TreeFS.Dir new) ->
  exists r,
    TreeFS.create (TreeFS.resolve dst) (TreeFS.Dir new) (TreeFS.root w) = inr r
    /\ stage_and_copy (H := TreeFS.platform data_root) corpus_name src w
       = (Ok tt, TreeFS.set_root r w,
          [IsDir staging; IsDir dst; IsDir dst; CopyTree src dst;
           Log INFO ("Files copied from " +:+ src +:+ " to " +:+ dst)]).
Proof.
  intros Hsrc.
  pose proof (resolve_destination data_root corpus_name Hplain) as Hpd.
  fold staging dst in Hpd.
  destruct (tree_create_in_dir (TreeFS.resolve staging) corpus_name (TreeFS.Dir new)
              (TreeFS.root w)) as [r Hr];
    [exact Hstaging | rewrite <- Hpd; exact Hfree |].
  rewrite <- Hpd in Hr. exists r. split; [exact Hr|].
  assert (Hisdir : TreeFS.isdir dst w = false)
    by (unfold TreeFS.isdir; rewrite Hfree; reflexivity).
  assert (Hcopy : TreeFS.copytree src dst w = (Ok tt, TreeFS.set_root r w))
    by (unfold TreeFS.copytree; rewrite Hsrc, Hr; reflexivity).
  unfold stage_and_copy. on_tree data_root. fold staging dst.
  mrun. rewrite Hstaging. cbv beta iota zeta delta [negb]. rewrite Hisdir.
  cbv beta iota zeta delta [negb]. rewrite Hisdir. cbv beta iota zeta delta [negb].
  rewrite copy_dir_recursive_unfold. on_tree data_root. cbv zeta.
  rewrite Hcopy. reflexivity.
Qed.

(** The destination is free and the source a file: the tree copy fails and
    the file is copied. *)
Lemma tree_stage_and_copy_file (content : string) :
  TreeFS.lookup (TreeFS.resolve src) (TreeFS.root w) = Some (TreeFS.File content) ->
  exists r,
    TreeFS.lookup (TreeFS.resolve dst) r = Some (TreeFS.File content)
    /\ stage_and_copy (H := TreeFS.platform data_root) corpus_name src w
       = (Ok tt, TreeFS.set_root r w,
          [IsDir staging; IsDir dst; IsDir dst; CopyTree src dst; CopyFile src dst;
           Log INFO ("Files copied from " +:+ src +:+ " to " +:+ dst)]).
Proof.
  intros Hsrc.
  pose proof (resolve_destination data_root corpus_name Hplain) as Hpd.
  fold staging dst in Hpd.
  destruct (tree_put_in_dir (TreeFS.resolve staging) corpus_name (TreeFS.File content)
              (TreeFS.root w) Hstaging) as (r & Hr & Hl).
  rewrite <- Hpd in Hr, Hl. exists r. split; [exact Hl|].
  assert (Hisdir : TreeFS.isdir dst w = false)
    by (unfold TreeFS.isdir; rewrite Hfree; reflexivity).
  assert (Htree : TreeFS.copytree src dst w
                  = (Raise (OSError (Some errno.ENOTDIR) src), w))
    by (unfold TreeFS.copytree; rewrite Hsrc; reflexivity).
  assert (Hcopy : TreeFS.copy src dst w = (Ok tt, TreeFS.set_root r w)).
  { unfold TreeFS.copy. rewrite Hsrc, Hisdir, Hfree. cbn [TreeFS.is_dir].
    rewrite Hr. reflexivity. }
  unfold stage_and_copy. on_tree data_root. fold staging dst.
  mrun. rewrite Hstaging. cbv beta iota zeta delta [negb]. rewrite Hisdir.
  cbv beta iota zeta delta [negb]. rewrite Hisdir. cbv beta iota zeta delta [negb].
  rewrite copy_dir_recursive_unfold. on_tree data_root. cbv zeta.
  rewrite Htree. cbv beta iota zeta delta [is_OSError exn_errno andb].
  rewrite bool_decide_eq_true_2 by reflexivity. rewrite Hcopy. reflexivity.
Qed.

End TreeFirstRuns.

Section TreeImports.
Variable data_root : string.
Variable reg : Registry.
Variable self : CorpusImporter.
Variables corpus_name p : string.
Variable corpora : list corpus.
Variable d : corpus.
Hypothesis Hreg : LANGUAGE_CORPORA reg !! language self = Some corpora.
Hypothesis Hd : first_named corpus_name corpora = Some d.
Hypothesis Hloc : location d = "local".
Hypothesis Hlegacy : Str.mem corpus_name ["phi5"; "phi7"; "tlg"] = true.

(** A legacy import on the tree, in terms of the staging and the copy. *)
Lemma tree_import_legacy (w : TreeFS.world) :
  import_corpus (H := TreeFS.platform data_root) reg self corpus_name (Some p) w =
    let src := Str.rstrip os_path.pathsep p in
    let '(r, w', t) := stage_and_copy (H := TreeFS.platform data_root) corpus_name src w in
    (r, w',
     Log INFO ("Importing from local path: '" +:+ p +:+ "'")
     :: dir_name_logs corpus_name src ++ t).
Proof.
  rewrite (import_corpus_local (H := TreeFS.platform data_root)
             reg self corpus_name (Some p) corpora d w Hreg Hd Hloc).
  apply (local_branch_split (H := TreeFS.platform data_root) corpus_name p w Hlegacy).
Qed.

End TreeImports.




Lemma tree_lookup_remove_none (p q : list string) (n : TreeFS.node) :
  TreeFS.lookup q n = None -> TreeFS.lookup q (TreeFS.remove p n) = None.
Proof.
  revert q n. induction p as [|x p IH]; intros q n Hq; [exact Hq|].
  destruct n as [c|es]; [exact Hq|].
  cbn [TreeFS.remove]. destruct q as [|y q]; [discriminate|].
  cbn [TreeFS.lookup] in Hq. destruct p as [|z p].
  - cbn [TreeFS.lookup]. destruct (decide (x = y)) as [<-|Hne].
    + now rewrite lookup_delete_eq.
    + rewrite lookup_delete_ne by exact Hne. exact Hq.
  - destruct (es !! x) as [c|] eqn:Hx; [|exact Hq].
    cbn [TreeFS.lookup]. destruct (decide (x = y)) as [<-|Hne].
    + rewrite lookup_insert_eq. rewrite Hx in Hq. now apply IH.
    + rewrite lookup_insert_ne by exact Hne. exact Hq.
Qed.

Lemma tree_lookup_removed_below (p rest : list string) (n : TreeFS.node) :
  p <> [] -> TreeFS.lookup (p ++ rest) (TreeFS.remove p n) = None.
Proof.
  intros Hp. rewrite tree_lookup_app, tree_lookup_remove_same by exact Hp. reflexivity.
Qed.


(** ** The further properties on the sample installation *)

Lemma constructed_importer_is_normal_witness :
  In "greek" AVAILABLE_LANGUAGES
  /\ Str.lower "greek" = "greek"
  /\ __init__ "greek" Sample.w0 = (Ok Sample.greek, Sample.w0, []).
Proof.
  exact (constructed_importer_is_normal "GREEK" Sample.greek Sample.w0 eq_refl).
Defined.

Lemma listed_names_are_the_importable_ones_witness :
  (exists names,
     list_corpora Sample.reg Sample.greek Sample.w0 = (Ok names, Sample.w0, [])
     /\ if Str.mem "phi7" names
        then exists d,
               _get_corpus_properties Sample.reg Sample.greek "phi7" Sample.w0
               = (Ok d, Sample.w0, [])
               /\ name d = "phi7"
        else exists msg,
               _get_corpus_properties Sample.reg Sample.greek "phi7" Sample.w0
               = (Raise (CorpusImportError msg), Sample.w0, [Log ERROR msg]))
  /\ list_corpora Sample.reg Sample.greek Sample.w0
     = (Ok ["greek_models_cltk"; "tlg"; "phi7"; "greek_custom"; "tlg"], Sample.w0, []).
Proof.
  split; [|reflexivity].
  exact (listed_names_are_the_importable_ones Sample.reg "Greek" Sample.greek "phi7"
           Sample.w0 eq_refl).
Defined.


Lemma silent_imports_witness :
  import_corpus (H := Sample.P) Sample.reg Sample.greek "greek_custom"
    (Some "/home/u/TLG_E") Sample.w0
  = (Ok tt, Sample.w0, [Log INFO "Importing from local path: '/home/u/TLG_E'"]).
Proof.
  exact (silent_imports (H := Sample.P) Sample.reg Sample.greek "greek_custom"
           (Some "/home/u/TLG_E") (GREEK_CORPORA Sample.reg)
           (mkCorpus "greek_custom" "local" "text") Sample.w0
           eq_refl eq_refl eq_refl (or_intror eq_refl)).
Defined.


Lemma remote_import_stays_in_its_directory_witness :
  forallb (remote_call "https://github.com/cltk/greek_models_cltk.git"
             "/home/u/cltk_data/greek/model"
             "/home/u/cltk_data/greek/model/greek_models_cltk"
             "/home/u/cltk_data/greek/model/greek_models_cltk/README.md")
    (trace_of (import_corpus (H := Sample.P) Sample.reg Sample.greek
                 "greek_models_cltk" None Sample.w0)) = true.
Proof.
  exact (remote_import_stays_in_its_directory (H := Sample.P) Sample.reg Sample.greek
           "greek_models_cltk" None (GREEK_CORPORA Sample.reg)
           (mkCorpus "greek_models_cltk" "remote" "model") Sample.w0
           eq_refl eq_refl eq_refl).
Defined.

Lemma local_import_stays_in_its_destination_witness :
  forallb (local_call "/home/u/cltk_data/originals" "/home/u/TLG_E"
             "/home/u/cltk_data/originals/tlg")
    (trace_of (import_corpus (H := Sample.P) Sample.reg Sample.greek "tlg"
                 (Some "/home/u/TLG_E") Sample.w0)) = true.
Proof.
  exact (local_import_stays_in_its_destination (H := Sample.P) Sample.reg Sample.greek
           "tlg" (Some "/home/u/TLG_E") (GREEK_CORPORA Sample.reg)
           (mkCorpus "tlg" "local" "text") Sample.w0 eq_refl eq_refl eq_refl).
Defined.

(** The TLG imported from the directory [PHI5]: one line of complaint, and
    the import goes on. *)
Lemma directory_name_check_only_logs_witness :
  import_corpus (H := Sample.P) Sample.reg Sample.greek "tlg"
    (Some "/home/u/PHI5") Sample.w0
  = (result (stage_and_copy (H := Sample.P) "tlg" "/home/u/PHI5" Sample.w0),
     world_of (stage_and_copy (H := Sample.P) "tlg" "/home/u/PHI5" Sample.w0),
     [Log INFO "Importing from local path: '/home/u/PHI5'";
      Log INFO "Directory must be named 'TLG_E'."]
     ++ trace_of (stage_and_copy (H := Sample.P) "tlg" "/home/u/PHI5" Sample.w0))
  /\ result (import_corpus (H := Sample.P) Sample.reg Sample.greek "tlg"
               (Some "/home/u/PHI5") Sample.w0) = Ok tt.
Proof.
  split; [|reflexivity].
  exact (directory_name_check_only_logs (H := Sample.P) Sample.reg Sample.greek "tlg"
           "/home/u/PHI5" (GREEK_CORPORA Sample.reg) (mkCorpus "tlg" "local" "text")
           Sample.w0 eq_refl eq_refl eq_refl eq_refl).
Defined.




